(** * AlienShot console: the HTTP client side of the photo-sharing service

    A shallow embedding of the Vue front end of AlienShotServer:
    - [Api]: services/api.js (base URL, admin header, file URLs);
    - [Http]: the requests handed to axios and the promises awaited;
    - [AdminView]: views/AdminView.vue (the password-protected console);
    - [ShareView]: views/ShareView.vue (the public, token-addressed gallery);
    - [Backend]: the share-creation operation of the Flask service, which
      the front end calls but whose code is not part of the sources.

    JavaScript strings are modelled as [string] (their UTF-8 bytes), JS
    objects used as dictionaries (headers, JSON bodies) as [gmap string _],
    arrays as lists, [undefined]/[null] as [None]. *)

From Stdlib Require Import Ascii String.
From stdpp Require Import base decidable option list strings gmap pretty.

(** ** Data on the wire

    Photo ids are the integer keys of the metadata table (the service
    orders ties by id); tokens, names and timestamps are strings.  Every
    value below is what [response.data] holds after JSON parsing, so an id
    is never [NaN] and [includes] (SameValueZero) and [!==] agree on it:
    both are the decidable equality of [Z]. *)

Record Photo := {
  photo_id : Z;
  photo_original_name : string;
  photo_created_at : string
}.

(** [response.data] of [GET /shares/{token}]; [share_rest] holds whatever
    other fields the object carries. *)
Record ShareData := {
  share_created_at : string;
  share_photos : list Photo;
  share_rest : gmap string string
}.

(** [response.data] of [POST /shares]. *)
Record ShareDetails := {
  details_token : string;
  details_share_url : string;
  details_photos : list Photo;
  details_rest : gmap string string
}.

(** A [File] picked in the upload input. *)
Record File := {
  file_name : string;
  file_bytes : string
}.

(** ** services/api.js *)
Module Api.

(** The literal on the right of [||] in [rawBaseUrl]. *)
Definition defaultBaseUrl : string := "http://localhost:5000".

(** [import.meta.env.VITE_API_BASE_URL || 'http://localhost:5000']:
    [None] is [undefined]; [||] also takes its right operand when the left
    one is the empty string, the only falsy string. *)
Definition rawBaseUrl (env : option string) : string :=
  match env with
  | Some u => if decide (u = "") then defaultBaseUrl else u
  | None => defaultBaseUrl
  end.

(** [s.replace(/\/$/, '')]: without the [m] flag [$] matches at the end of
    the input only, so the one possible match is a final ["/"]. *)
Fixpoint stripTrailingSlash (s : string) : string :=
  match s with
  | EmptyString => EmptyString
  | String c EmptyString => if decide (c = "/"%char) then EmptyString else s
  | String c rest => String c (stripTrailingSlash rest)
  end.

Definition apiBaseUrl (env : option string) : string :=
  stripTrailingSlash (rawBaseUrl env).

(** [adminHeaders(password)]: an object with the one key. *)
Definition adminHeaders (password : string) : gmap string string :=
  {[ "X-Admin-Password" := password ]}.

(** *** [URLSearchParams] serialisation

    [`${params}`] is the application/x-www-form-urlencoded serialisation
    of the pairs: the bytes of [A-Za-z0-9*-._] stay, a space becomes [+],
    every other byte becomes [%XX] in upper-case hexadecimal. *)
Definition hexDigit (n : N) : ascii :=
  match n with
  | 0 => "0" | 1 => "1" | 2 => "2" | 3 => "3" | 4 => "4" | 5 => "5"
  | 6 => "6" | 7 => "7" | 8 => "8" | 9 => "9" | 10 => "A" | 11 => "B"
  | 12 => "C" | 13 => "D" | 14 => "E" | _ => "F"
  end%N%char.

Definition formSafe (c : ascii) : bool :=
  let n := N_of_ascii c in
  ((48 <=? n) && (n <=? 57) || (65 <=? n) && (n <=? 90)
   || (97 <=? n) && (n <=? 122)
   || (n =? 42) || (n =? 45) || (n =? 46) || (n =? 95))%N.

Definition formEncodeByte (c : ascii) : string :=
  if formSafe c then String c EmptyString
  else if decide (c = " "%char) then "+"
  else String "%" (String (hexDigit (N_of_ascii c / 16))
                     (String (hexDigit (N_of_ascii c mod 16)) EmptyString)).

Fixpoint formEncode (s : string) : string :=
  match s with
  | EmptyString => EmptyString
  | String c rest => formEncodeByte c +:+ formEncode rest
  end.

(** [new URLSearchParams({ password }).toString()]: one pair. *)
Definition passwordParams (password : string) : string :=
  formEncode "password" +:+ "=" +:+ formEncode password.

(** [photoFileUrl(photoId, password)]; a number in a template literal is
    printed in decimal. *)
Definition photoFileUrl (env : option string) (photoId : Z) (password : string)
  : string :=
  apiBaseUrl env +:+ "/photos/" +:+ pretty photoId +:+ "/file?"
  +:+ passwordParams password.

(** [shareFileUrl(token, photoId)]. *)
Definition shareFileUrl (env : option string) (token : string) (photoId : Z)
  : string :=
  apiBaseUrl env +:+ "/shares/" +:+ token +:+ "/files/" +:+ pretty photoId.

(** *** Reading a form-encoded component back

    What a server does with the query string; used to state that the
    password travels in the [password] parameter. *)
Definition hexValue (c : ascii) : option N :=
  let n := N_of_ascii c in
  if ((48 <=? n) && (n <=? 57))%N then Some (n - 48)%N
  else if ((65 <=? n) && (n <=? 70))%N then Some (n - 55)%N
  else if ((97 <=? n) && (n <=? 102))%N then Some (n - 87)%N
  else None.

Fixpoint formDecode (s : string) : option string :=
  match s with
  | EmptyString => Some EmptyString
  | String "%" (String h (String l rest)) =>
      match hexValue h, hexValue l, formDecode rest with
      | Some a, Some b, Some r => Some (String (ascii_of_N (16 * a + b)) r)
      | _, _, _ => None
      end
  | String "%" _ => None
  | String "+" rest => String " " <$> formDecode rest
  | String c rest => String c <$> formDecode rest
  end.

(** Splits [key=value] at the first [=]. *)
Fixpoint splitAtEquals (s : string) : option (string * string) :=
  match s with
  | EmptyString => None
  | String "=" rest => Some (EmptyString, rest)
  | String c rest =>
      match splitAtEquals rest with
      | Some (k, v) => Some (String c k, v)
      | None => None
      end
  end.

Definition parsePair (s : string) : option (string * string) :=
  match splitAtEquals s with
  | Some (k, v) =>
      match formDecode k, formDecode v with
      | Some k', Some v' => Some (k', v')
      | _, _ => None
      end
  | None => None
  end.

End Api.

(** ** Requests handed to axios, and the promises awaited *)
Module Http.

Inductive Method := GET | POST | DELETE.

#[global] Instance method_eq_dec : EqDecision Method.
Proof. solve_decision. Defined.

(** The [data] of a request: nothing, a JSON object whose fields hold
    arrays of photo ids (the only JSON the views send), or a [FormData]. *)
Inductive Body :=
| NoBody
| Json (fields : gmap string (list Z))
| Multipart (parts : list (string * File)).

(** One call on the [api] instance: [url] is the path given to axios (it is
    relative to [baseURL: apiBaseUrl]), [headers] the [headers] object of the
    config ([∅] when the call passes none). *)
Record Request := {
  method : Method;
  url : string;
  headers : gmap string string;
  body : Body;
  responseType : option string
}.

(** [error.response]; [data] is [None] for [undefined] or [null]. *)
Record ErrorResponse := {
  status : Z;
  data : option string
}.

(** The value a rejected call throws; [response] is [None] when no answer
    came back (network failure). *)
Record AxiosError := {
  response : option ErrorResponse
}.

(** What the caller reads from [response.data], by endpoint. *)
Inductive Shape := PhotoList | ShareInfo | ShareCreated | Blob | Ignored.

Definition payload (sh : Shape) : Type :=
  match sh with
  | PhotoList => list Photo
  | ShareInfo => ShareData
  | ShareCreated => ShareDetails
  | Blob => string
  | Ignored => unit
  end.

(** A settled promise. *)
Inductive Result (T : Type) :=
| Resolved (value : T)
| Rejected (error : AxiosError).
Arguments Resolved {T} value.
Arguments Rejected {T} error.

(** An [async] function: it finishes with a value, or awaits one call and
    goes on with how the call settled ([try]/[catch] is the match on it). *)
Inductive Task (A : Type) :=
| Done (a : A)
| Await (sh : Shape) (r : Request) (k : Result (payload sh) → Task A).
Arguments Done {A} a.
Arguments Await {A} sh r k.

Fixpoint bind {A B} (t : Task A) (f : A → Task B) : Task B :=
  match t with
  | Done a => f a
  | Await sh r k => Await sh r (λ res, bind (k res) f)
  end.

#[global] Instance task_ret : MRet Task := λ A a, Done a.
#[global] Instance task_bind : MBind Task := λ A B f t, bind t f.

(** One request with how it settled. *)
Record Exchange := {
  ex_shape : Shape;
  ex_request : Request;
  ex_result : Result (payload ex_shape)
}.

Definition ex_error (ex : Exchange) : option AxiosError :=
  match ex_result ex with
  | Resolved _ => None
  | Rejected e => Some e
  end.

(** Runs a task against a server: [handle] answers each call from the
    server's state.  Returns the value, the server's state and the exchanges
    in the order they were made. *)
Fixpoint run {Σ A : Type}
    (handle : ∀ sh, Request → Σ → Result (payload sh) * Σ)
    (t : Task A) (σ : Σ) : A * Σ * list Exchange :=
  match t with
  | Done a => (a, σ, [])
  | Await sh r k =>
      let '(res, σ1) := handle sh r σ in
      let '(a, σ2, tr) := run handle (k res) σ1 in
      (a, σ2, Build_Exchange sh r res :: tr)
  end.

(** The requests a task can make, whatever the answers. *)
Fixpoint issues {A : Type} (t : Task A) (r : Request) : Prop :=
  match t with
  | Done _ => False
  | Await sh r0 k => r = r0 ∨ ∃ res, issues (k res) r
  end.

(** The values a task can finish with, whatever the answers. *)
Fixpoint outcome {A : Type} (t : Task A) (a : A) : Prop :=
  match t with
  | Done a0 => a = a0
  | Await sh r k => ∃ res, outcome (k res) a
  end.

(** [api.get(url, { headers })], [api.post(url, data, { headers })],
    [api.delete(url, { headers, data })]. *)
Definition api_get (path : string) (hs : gmap string string) : Request :=
  {| method := GET; url := path; headers := hs; body := NoBody;
     responseType := None |}.

Definition api_post (path : string) (d : Body) (hs : gmap string string)
    (rt : option string) : Request :=
  {| method := POST; url := path; headers := hs; body := d;
     responseType := rt |}.

Definition api_delete (path : string) (hs : gmap string string) (d : Body)
  : Request :=
  {| method := DELETE; url := path; headers := hs; body := d;
     responseType := None |}.

(** Does a JSON body carry the field? *)
Definition hasField (name : string) (b : Body) : bool :=
  match b with
  | Json fields => bool_decide (is_Some (fields !! name))
  | _ => false
  end.

End Http.

(** ** views/AdminView.vue *)
Module AdminView.
Import Http.

(** The refs of the component, and the one [sessionStorage] item it uses
    ([None]: no item under the key ['alienshot-admin-password']). *)
Record State := {
  passwordInput : string;
  adminPassword : string;
  photos : list Photo;
  selectedIds : list Z;
  statusMessage : string;
  errorMessage : string;
  shareDetails : option ShareDetails;
  uploading : bool;
  deleting : bool;
  generating : bool;
  sessionItem : option string
}.

Definition set_adminPassword (v : string) (st : State) : State :=
  {| passwordInput := passwordInput st; adminPassword := v;
     photos := photos st; selectedIds := selectedIds st;
     statusMessage := statusMessage st; errorMessage := errorMessage st;
     shareDetails := shareDetails st; uploading := uploading st;
     deleting := deleting st; generating := generating st;
     sessionItem := sessionItem st |}.

Definition set_photos (v : list Photo) (st : State) : State :=
  {| passwordInput := passwordInput st; adminPassword := adminPassword st;
     photos := v; selectedIds := selectedIds st;
     statusMessage := statusMessage st; errorMessage := errorMessage st;
     shareDetails := shareDetails st; uploading := uploading st;
     deleting := deleting st; generating := generating st;
     sessionItem := sessionItem st |}.

Definition set_selectedIds (v : list Z) (st : State) : State :=
  {| passwordInput := passwordInput st; adminPassword := adminPassword st;
     photos := photos st; selectedIds := v;
     statusMessage := statusMessage st; errorMessage := errorMessage st;
     shareDetails := shareDetails st; uploading := uploading st;
     deleting := deleting st; generating := generating st;
     sessionItem := sessionItem st |}.

Definition set_statusMessage (v : string) (st : State) : State :=
  {| passwordInput := passwordInput st; adminPassword := adminPassword st;
     photos := photos st; selectedIds := selectedIds st;
     statusMessage := v; errorMessage := errorMessage st;
     shareDetails := shareDetails st; uploading := uploading st;
     deleting := deleting st; generating := generating st;
     sessionItem := sessionItem st |}.

Definition set_errorMessage (v : string) (st : State) : State :=
  {| passwordInput := passwordInput st; adminPassword := adminPassword st;
     photos := photos st; selectedIds := selectedIds st;
     statusMessage := statusMessage st; errorMessage := v;
     shareDetails := shareDetails st; uploading := uploading st;
     deleting := deleting st; generating := generating st;
     sessionItem := sessionItem st |}.

Definition set_shareDetails (v : option ShareDetails) (st : State) : State :=
  {| passwordInput := passwordInput st; adminPassword := adminPassword st;
     photos := photos st; selectedIds := selectedIds st;
     statusMessage := statusMessage st; errorMessage := errorMessage st;
     shareDetails := v; uploading := uploading st;
     deleting := deleting st; generating := generating st;
     sessionItem := sessionItem st |}.

Definition set_uploading (v : bool) (st : State) : State :=
  {| passwordInput := passwordInput st; adminPassword := adminPassword st;
     photos := photos st; selectedIds := selectedIds st;
     statusMessage := statusMessage st; errorMessage := errorMessage st;
     shareDetails := shareDetails st; uploading := v;
     deleting := deleting st; generating := generating st;
     sessionItem := sessionItem st |}.

Definition set_deleting (v : bool) (st : State) : State :=
  {| passwordInput := passwordInput st; adminPassword := adminPassword st;
     photos := photos st; selectedIds := selectedIds st;
     statusMessage := statusMessage st; errorMessage := errorMessage st;
     shareDetails := shareDetails st; uploading := uploading st;
     deleting := v; generating := generating st;
     sessionItem := sessionItem st |}.

Definition set_generating (v : bool) (st : State) : State :=
  {| passwordInput := passwordInput st; adminPassword := adminPassword st;
     photos := photos st; selectedIds := selectedIds st;
     statusMessage := statusMessage st; errorMessage := errorMessage st;
     shareDetails := shareDetails st; uploading := uploading st;
     deleting := deleting st; generating := v;
     sessionItem := sessionItem st |}.

Definition set_sessionItem (v : option string) (st : State) : State :=
  {| passwordInput := passwordInput st; adminPassword := adminPassword st;
     photos := photos st; selectedIds := selectedIds st;
     statusMessage := statusMessage st; errorMessage := errorMessage st;
     shareDetails := shareDetails st; uploading := uploading st;
     deleting := deleting st; generating := generating st;
     sessionItem := v |}.

(** The refs as [<script setup>] creates them, given what [sessionStorage]
    holds: [getItem(..) || ''] is [''] for a missing or an empty item. *)
Definition initial (session : option string) : State :=
  {| passwordInput := "";
     adminPassword := default "" session;
     photos := []; selectedIds := [];
     statusMessage := ""; errorMessage := "";
     shareDetails := None;
     uploading := false; deleting := false; generating := false;
     sessionItem := session |}.

(** [Boolean(adminPassword.value)]: a string is truthy when not empty. *)
Definition isUnlocked (st : State) : bool :=
  bool_decide (adminPassword st ≠ "").

Definition selectionCount (st : State) : nat := length (selectedIds st).

Definition persistPassword (st : State) : State :=
  if isUnlocked st then set_sessionItem (Some (adminPassword st)) st else st.

(** [error.response?.data ?? 'Erreur inattendue']: [??] takes its right
    operand only for [undefined] or [null]. *)
Definition errorText (error : AxiosError) : string :=
  match response error with
  | Some resp => default "Erreur inattendue" (data resp)
  | None => "Erreur inattendue"
  end.

Definition isForbidden (error : AxiosError) : bool :=
  match response error with
  | Some resp => bool_decide (status resp = 403%Z)
  | None => false
  end.

Definition handleError (error : AxiosError) (st : State) : State :=
  if isForbidden error then
    set_sessionItem None
      (set_adminPassword "" (set_errorMessage "Mot de passe invalide." st))
  else set_errorMessage (errorText error) st.

Definition fetchPhotos (st : State) : Task State :=
  if isUnlocked st then
    Await PhotoList
      (api_get "/photos" (Api.adminHeaders (adminPassword st)))
      (λ res,
        match res with
        | Resolved d =>
            Done (set_errorMessage ""
                   (set_statusMessage
                      ("Chargé (" +:+ pretty (length d) +:+ " photos)")
                      (set_selectedIds [] (set_photos d st))))
        | Rejected e => Done (handleError e st)
        end)
  else Done st.

(** [unlock]; [trim] is [String.prototype.trim]. *)
Definition unlock (trim : string → string) (st : State) : Task State :=
  if decide (trim (passwordInput st) = "") then
    Done (set_errorMessage "Merci de saisir le mot de passe admin." st)
  else
    fetchPhotos
      (persistPassword (set_adminPassword (trim (passwordInput st)) st)).

(** [handleUpload(event)] with [files] the input's [event.target.files]
    ([[]] when there is none); resetting the input's own value in [finally]
    touches no ref. *)
Definition handleUpload (files : list File) (st : State) : Task State :=
  if bool_decide (files = []) || negb (isUnlocked st) then Done st
  else
    let st1 := set_uploading true st in
    Await Ignored
      (api_post "/images/add"
         (Multipart ((λ f, ("photos", f)) <$> files))
         (<["Content-Type" := "multipart/form-data"]>
            (Api.adminHeaders (adminPassword st1)))
         None)
      (λ res,
        match res with
        | Resolved _ =>
            st2 ← fetchPhotos
                     (set_statusMessage
                        (pretty (length files) +:+ " photo(s) importées") st1);
            Done (set_uploading false st2)
        | Rejected e => Done (set_uploading false (handleError e st1))
        end).

Definition toggleSelection (id : Z) (st : State) : State :=
  if bool_decide (id ∈ selectedIds st) then
    set_selectedIds (filter (λ value, value ≠ id) (selectedIds st)) st
  else set_selectedIds (selectedIds st ++ [id]) st.

Definition deleteSelected (st : State) : Task State :=
  if bool_decide (selectionCount st = 0) then Done st
  else
    let st1 := set_deleting true st in
    Await Ignored
      (api_delete "/photos" (Api.adminHeaders (adminPassword st1))
         (Json {[ "photo_ids" := selectedIds st1 ]}))
      (λ res,
        match res with
        | Resolved _ =>
            st2 ← fetchPhotos
                     (set_shareDetails None
                        (set_statusMessage "Photos supprimées" st1));
            Done (set_deleting false st2)
        | Rejected e => Done (set_deleting false (handleError e st1))
        end).

Definition generateShare (st : State) : Task State :=
  if bool_decide (selectionCount st = 0) then Done st
  else
    let st1 := set_generating true st in
    Await ShareCreated
      (api_post "/shares" (Json {[ "photo_ids" := selectedIds st1 ]})
         (Api.adminHeaders (adminPassword st1)) None)
      (λ res,
        match res with
        | Resolved d =>
            Done (set_generating false
                    (set_statusMessage "Lien de partage créé"
                       (set_shareDetails (Some d) st1)))
        | Rejected e => Done (set_generating false (handleError e st1))
        end).

Definition buildPhotoSrc (env : option string) (photo : Photo) (st : State)
  : string :=
  if isUnlocked st then Api.photoFileUrl env (photo_id photo) (adminPassword st)
  else "".

(** [onMounted]. *)
Definition mounted (st : State) : Task State :=
  if isUnlocked st then fetchPhotos st else Done st.

(** *** The template *)

(** [<p v-if="errorMessage" class="status error">]: the paragraph exists
    only for a non-empty message. *)
Definition errorBanner (st : State) : option string :=
  if decide (errorMessage st = "") then None else Some (errorMessage st).

(** The toolbar of the unlocked console ([v-else] of [!isUnlocked]) holds
    the upload input and the refresh, share and delete buttons; the share
    and delete buttons are [disabled] without a selection. *)
Definition toolbarVisible (st : State) : bool := isUnlocked st.

(** What the share card shows: the token, the link (its [href] and its
    text), the value encoded by the QR code and the photo count. *)
Record ShareCard := {
  card_token : string;
  card_href : string;
  card_link_text : string;
  card_qr_value : string;
  card_photo_count : nat
}.

(** [<section v-if="shareDetails" class="panel share-card">]. *)
Definition shareCard (st : State) : option ShareCard :=
  match shareDetails st with
  | Some d =>
      Some {| card_token := details_token d;
              card_href := details_share_url d;
              card_link_text := details_share_url d;
              card_qr_value := details_share_url d;
              card_photo_count := length (details_photos d) |}
  | None => None
  end.

(** *** What the operator can do

    The handlers the template binds (the unlock button, the refresh button,
    the upload input, a click in the photo grid, the delete and the share
    buttons) and the [onMounted] hook. *)
Inductive Action :=
| Unlock
| Refresh
| Upload (files : list File)
| Toggle (id : Z)
| Delete
| Share
| Mounted.

Definition perform (trim : string → string) (a : Action) (st : State)
  : Task State :=
  match a with
  | Unlock => unlock trim st
  | Refresh => fetchPhotos st
  | Upload files => handleUpload files st
  | Toggle id => Done (toggleSelection id st)
  | Delete => deleteSelected st
  | Share => generateShare st
  | Mounted => mounted st
  end.

(** Does the page as rendered offer the action?  The password field and
    its button exist while the console is locked ([v-if="!isUnlocked"]),
    the toolbar and the grid while it is unlocked; the share button is
    [disabled] without a selection, the delete button also while a deletion
    runs; the hook is the component's own. *)
Definition offered (a : Action) (st : State) : bool :=
  match a with
  | Unlock => negb (isUnlocked st)
  | Refresh | Upload _ => isUnlocked st
  | Toggle id => isUnlocked st && bool_decide (id ∈ photo_id <$> photos st)
  | Share => isUnlocked st && negb (bool_decide (selectionCount st = 0))
  | Delete =>
      isUnlocked st && negb (bool_decide (selectionCount st = 0))
      && negb (deleting st)
  | Mounted => true
  end.

(** The refs at the moment an action makes its first request: the unlock
    button first stores (and persists) the secret typed, the upload, delete
    and share handlers only raise their busy flag, which the [finally]
    lowers again. *)
Definition atRequest (trim : string → string) (a : Action) (st : State)
  : State :=
  match a with
  | Unlock =>
      persistPassword (set_adminPassword (trim (passwordInput st)) st)
  | _ => st
  end.

(** What a failure with [e], of a request made from the refs [st0], leaves
    in the refs [st']. *)
Definition failedInto (e : AxiosError) (st0 st' : State) : Prop :=
  (isForbidden e = true →
     adminPassword st' = "" ∧ sessionItem st' = None
     ∧ isUnlocked st' = false
     ∧ errorMessage st' = "Mot de passe invalide.")
  ∧ (isForbidden e = false →
     adminPassword st' = adminPassword st0
     ∧ sessionItem st' = sessionItem st0
     ∧ errorMessage st' = errorText e
     ∧ errorBanner st' =
         (if decide (errorText e = "") then None else Some (errorText e))).

End AdminView.

(** ** What the error ref of the share view holds

    [errorMessage.value] is a string, or the [Blob] that axios puts in
    [error.response.data] for a call made with [responseType: 'blob'].  A
    [Blob] is truthy even when it holds no byte; the one falsy value is the
    empty string. *)
Inductive Message :=
| Text (s : string)
| Binary (blob : string).

Coercion Text : string >-> Message.

#[global] Instance message_eq_dec : EqDecision Message.
Proof. solve_decision. Defined.

(** ** views/ShareView.vue *)
Module ShareView.
Import Http.

(** The refs of the component.  [downloads] lists what the view handed to
    the browser to save: the [download] name of the anchor and the bytes of
    the blob. *)
Record State := {
  photos : list Photo;
  selectedIds : list Z;
  loading : bool;
  errorMessage : Message;
  shareDate : string;
  downloads : list (string * string)
}.

Definition set_photos (v : list Photo) (st : State) : State :=
  {| photos := v; selectedIds := selectedIds st; loading := loading st;
     errorMessage := errorMessage st; shareDate := shareDate st;
     downloads := downloads st |}.

Definition set_selectedIds (v : list Z) (st : State) : State :=
  {| photos := photos st; selectedIds := v; loading := loading st;
     errorMessage := errorMessage st; shareDate := shareDate st;
     downloads := downloads st |}.

Definition set_loading (v : bool) (st : State) : State :=
  {| photos := photos st; selectedIds := selectedIds st; loading := v;
     errorMessage := errorMessage st; shareDate := shareDate st;
     downloads := downloads st |}.

Definition set_errorMessage (v : Message) (st : State) : State :=
  {| photos := photos st; selectedIds := selectedIds st;
     loading := loading st; errorMessage := v; shareDate := shareDate st;
     downloads := downloads st |}.

Definition set_shareDate (v : string) (st : State) : State :=
  {| photos := photos st; selectedIds := selectedIds st;
     loading := loading st; errorMessage := errorMessage st; shareDate := v;
     downloads := downloads st |}.

Definition set_downloads (v : list (string * string)) (st : State) : State :=
  {| photos := photos st; selectedIds := selectedIds st;
     loading := loading st; errorMessage := errorMessage st;
     shareDate := shareDate st; downloads := v |}.

Definition initial : State :=
  {| photos := []; selectedIds := []; loading := true; errorMessage := "";
     shareDate := ""; downloads := [] |}.

(** [error.response?.data || fallback]: [||] takes its right operand for
    [undefined], [null] and the empty string. *)
Definition errorText (fallback : string) (error : AxiosError) : string :=
  match response error with
  | Some resp =>
      match data resp with
      | Some d => if decide (d = "") then fallback else d
      | None => fallback
      end
  | None => fallback
  end.

(** [fetchShare], with [token] the [props.token] of the moment. *)
Definition fetchShare (token : string) (st : State) : Task State :=
  let st1 := set_errorMessage "" (set_loading true st) in
  Await ShareInfo (api_get ("/shares/" +:+ token) ∅)
    (λ res,
      match res with
      | Resolved d =>
          Done (set_loading false
                  (set_selectedIds []
                     (set_shareDate (share_created_at d)
                        (set_photos (share_photos d) st1))))
      | Rejected e =>
          Done (set_loading false
                  (set_errorMessage (errorText "Partage introuvable." e) st1))
      end).

Definition toggleSelection (id : Z) (st : State) : State :=
  if bool_decide (id ∈ selectedIds st) then
    set_selectedIds (filter (λ value, value ≠ id) (selectedIds st)) st
  else set_selectedIds (selectedIds st ++ [id]) st.

Definition buildPhotoSrc (env : option string) (token : string) (photo : Photo)
  : string :=
  Api.shareFileUrl env token (photo_id photo).

(** [error.response?.data || fallback] in the [catch] of a call made with
    [responseType: 'blob']: the [data] of a response is then a [Blob], which
    [||] keeps whatever it holds; the fallback is taken only when there is no
    response or no data. *)
Definition blobErrorValue (fallback : string) (error : AxiosError) : Message :=
  match response error with
  | Some resp =>
      match data resp with
      | Some blob => Binary blob
      | None => Text fallback
      end
  | None => Text fallback
  end.

(** [downloadPhotos(photoIds = [])].  On success the blob is saved through
    a temporary anchor whose [download] is [alienshot-<token>.zip]. *)
Definition downloadPhotos (token : string) (photoIds : list Z) (st : State)
  : Task State :=
  if bool_decide (length (photos st) = 0) then Done st
  else
    Await Blob
      (api_post ("/shares/" +:+ token +:+ "/download")
         (Json (if bool_decide (length photoIds = 0) then ∅
                else {[ "photo_ids" := photoIds ]}))
         ∅ (Some "blob"))
      (λ res,
        match res with
        | Resolved d =>
            Done (set_downloads
                    (downloads st ++ [("alienshot-" +:+ token +:+ ".zip", d)])
                    st)
        | Rejected e =>
            Done (set_errorMessage
                    (blobErrorValue "Téléchargement impossible." e) st)
        end).

Definition downloadSelected (token : string) (st : State) : Task State :=
  if bool_decide (length (selectedIds st) = 0) then Done st
  else downloadPhotos token (selectedIds st) st.

Definition downloadAll (token : string) (st : State) : Task State :=
  downloadPhotos token [] st.

(** *** The template *)

(** [<PhotoGrid v-if="!loading && !errorMessage" ...>]. *)
Definition galleryVisible (st : State) : bool :=
  negb (loading st) && bool_decide (errorMessage st = "").

(** The ids a click in the grid can emit: [PhotoGrid] emits
    [toggle(photo.id)] for a [photo] of its [photos] prop. *)
Definition displayedIds (st : State) : list Z := photo_id <$> photos st.

(** [<p v-if="errorMessage" class="status error">]. *)
Definition errorBanner (st : State) : option Message :=
  if decide (errorMessage st = "") then None else Some (errorMessage st).

(** *** What a visitor can do

    The view is mounted on a token, the route can then change the token
    (the [watch] re-fetches), a click in the visible grid toggles one of
    its photos, and the two buttons download. *)
Inductive Action :=
| Navigate (token : string)
| Toggle (id : Z)
| DownloadSelected
| DownloadAll.

(** The view with its [token] prop. *)
Record View := {
  token : string;
  refs : State
}.

(** Can the page as rendered produce the action? *)
Definition enabled (a : Action) (v : View) : bool :=
  match a with
  | Navigate _ => true
  | Toggle id =>
      galleryVisible (refs v) && bool_decide (id ∈ displayedIds (refs v))
  | DownloadSelected =>
      negb (bool_decide (length (photos (refs v)) = 0))
      && negb (bool_decide (length (selectedIds (refs v)) = 0))
  | DownloadAll => negb (bool_decide (length (photos (refs v)) = 0))
  end.

Definition perform (a : Action) (v : View) : Task View :=
  match a with
  | Navigate t => st ← fetchShare t (refs v); Done {| token := t; refs := st |}
  | Toggle id => Done {| token := token v; refs := toggleSelection id (refs v) |}
  | DownloadSelected =>
      st ← downloadSelected (token v) (refs v);
      Done {| token := token v; refs := st |}
  | DownloadAll =>
      st ← downloadAll (token v) (refs v);
      Done {| token := token v; refs := st |}
  end.

(** Performs the actions in turn, skipping those the page does not offer.
    Each action settles before the next one starts: two promises in flight
    at once are not modelled. *)
Fixpoint session (acts : list Action) (v : View) : Task View :=
  match acts with
  | [] => Done v
  | a :: rest =>
      if enabled a v then v' ← perform a v; session rest v'
      else session rest v
  end.

(** Mounts the view on [t]: [onMounted(fetchShare)]. *)
Definition mount (t : string) : Task View :=
  st ← fetchShare t initial; Done {| token := t; refs := st |}.

(** The photos an exchange delivers to the view: those of a resolved
    [GET /shares/{token}], nothing for any other exchange. *)
Definition delivered (ex : Exchange) : option (list Photo) :=
  match ex_shape ex as sh return Result (payload sh) → option (list Photo) with
  | ShareInfo => λ res,
      match res with
      | Resolved d => Some (share_photos d)
      | Rejected _ => None
      end
  | _ => λ _, None
  end (ex_result ex).

(** The photos of the last share that resolved in a run of exchanges, [acc]
    when none did. *)
Fixpoint lastResolved (acc : list Photo) (tr : list Exchange) : list Photo :=
  match tr with
  | [] => acc
  | ex :: rest => lastResolved (default acc (delivered ex)) rest
  end.

(** Every selected id is the id of a photo of the list the grid is given. *)
Definition selectionValid (st : State) : Prop :=
  selectedIds st ⊆ displayedIds st.

End ShareView.

(** ** The share-creation operation of the service

    The Flask back end is not part of the sources; what follows is taken
    from its specification (data model, authentication gate, share
    service, error taxonomy). *)
Module Backend.

(** Modelled from the spec: the error taxonomy of the service, which the
    sources do not contain. *)
Inductive Error :=
| Unauthorized
| NotFound
| InvalidRequest
| Conflict
| EmptyResult.

(** Modelled from the spec: the process-wide configuration (admin secret
    and share base URL), loaded once at startup. *)
Record Config := {
  adminSecret : string;
  shareBaseUrl : string
}.

(** Modelled from the spec: the Metadata Store, which the sources do not
    contain: the photo records by id, the share rows (token to creation
    timestamp) and the join table keyed by (token, photo id). *)
Record Store := {
  photoRows : gmap Z Photo;
  shareRows : gmap string string;
  joinRows : gset (string * Z)
}.

(** Modelled from the spec: the Authentication Gate (a presented secret is
    compared with the configured one; a missing secret is refused). *)
Definition authorized (cfg : Config) (presented : option string) : bool :=
  bool_decide (presented = Some (adminSecret cfg)).

(** Modelled from the spec: the token of a new share is drawn from a random
    source, here the list of its draws; a draw that collides with an
    existing token is not used (never overwrite: draw again). *)
Definition freshToken (draws : list string) (st : Store) : option string :=
  list_find (λ t, shareRows st !! t = None) draws ≫= λ p, Some p.2.

(** Modelled from the spec: the photos a share is bound to that still
    exist, in the order of [ids]. *)
Definition resolvePhotos (ids : list Z) (st : Store) : list Photo :=
  omap (λ i, photoRows st !! i) ids.

(** Modelled from the spec: [create(ids)] of the Share Service, which the
    sources do not contain.  Authentication short-circuits before any store
    access; an empty id set is an invalid request; every id must exist or
    the whole creation fails with nothing persisted (the spec names no kind
    for this failure: [InvalidRequest] is used); otherwise the share row and
    its join rows are written and the token, the share URL and the photos
    are returned. *)
Definition create (cfg : Config) (presented : option string) (now : string)
    (draws : list string) (ids : list Z) (st : Store)
  : (Error + ShareDetails) * Store :=
  if negb (authorized cfg presented) then (inl Unauthorized, st)
  else if bool_decide (ids = []) then (inl InvalidRequest, st)
  else if negb (forallb (λ i, bool_decide (is_Some (photoRows st !! i))) ids)
  then (inl InvalidRequest, st)
  else
    match freshToken draws st with
    | None => (inl Conflict, st)
    | Some tok =>
        (inr {| details_token := tok;
                details_share_url := shareBaseUrl cfg +:+ "/" +:+ tok;
                details_photos := resolvePhotos ids st;
                details_rest := ∅ |},
         {| photoRows := photoRows st;
            shareRows := <[tok := now]> (shareRows st);
            joinRows := joinRows st ∪ list_to_set ((λ i, (tok, i)) <$> ids) |})
    end.

End Backend.

(** ** Servers to run the views against *)
Module Samples.
Import Http.

(** A server that refuses every call with the same error. *)
Definition refusing (e : AxiosError) (sh : Shape) (_ : Request) (σ : unit)
  : Result (payload sh) * unit := (Rejected e, σ).

Definition notFound : AxiosError :=
  {| response := Some {| status := 404; data := Some "Share not found" |} |}.

Definition photo7 : Photo :=
  {| photo_id := 7; photo_original_name := "a.jpg";
     photo_created_at := "2024-05-01T10:00:00" |}.

(** A server that knows the one share [a], of the one photo 7, and answers
    404 to everything else. *)
Definition oneShare (sh : Shape) (r : Request) (σ : unit)
  : Result (payload sh) * unit :=
  (match sh return Result (payload sh) with
   | ShareInfo =>
       if decide (method r = GET ∧ url r = "/shares/a") then
         Resolved {| share_created_at := "2024-05-02T08:00:00";
                     share_photos := [photo7];
                     share_rest := ∅ |}
       else Rejected notFound
   | _ => Rejected notFound
   end, σ).

(** A server that accepts every call: it lists photo 7 and puts it in
    every share. *)
Definition accepting (sh : Shape) (_ : Request) (σ : unit)
  : Result (payload sh) * unit :=
  (match sh return Result (payload sh) with
   | PhotoList => Resolved [photo7]
   | ShareInfo =>
       Resolved {| share_created_at := "2024-05-02T08:00:00";
                   share_photos := [photo7];
                   share_rest := ∅ |}
   | ShareCreated =>
       Resolved {| details_token := "tok";
                   details_share_url := "https://front.example/share/tok";
                   details_photos := [photo7];
                   details_rest := ∅ |}
   | Blob => Resolved "PK"
   | Ignored => Resolved tt
   end, σ).

End Samples.

(** ** Suffixes and prefixes of strings, to state the URL properties *)






(** ** Toggling an id in a selection, as a function on lists

    What both [toggleSelection] handlers do to [selectedIds.value]. *)
Definition toggled (id : Z) (ids : list Z) : list Z :=
  if bool_decide (id ∈ ids) then filter (λ value, value ≠ id) ids
  else ids ++ [id].

(** ** components/PhotoGrid.vue *)
Module PhotoGrid.

(** The props; a parent that does not bind [selectable], [showEmpty] or
    [linkBuilder] gets [true], [true] and [null] ([None]). *)
Record Props := {
  photos : list Photo;
  selectedIds : list Z;
  selectable : bool;
  showEmpty : bool;
  getPhotoSrc : Photo → string;
  linkBuilder : option (Photo → string)
}.

Definition isSelected (props : Props) (id : Z) : bool :=
  bool_decide (id ∈ selectedIds props).

(** [formatDate(value)]; [format] is the [Intl.DateTimeFormat('fr-FR', ...)]
    of the host, and a missing timestamp is the empty string. *)
Definition formatDate (format : string → string) (value : string) : string :=
  if decide (value = "") then "Date inconnue" else format value.

(** The checkbox of a card: its [checked] state, the text beside it and the
    id it passes to [emit('toggle', ...)] when it changes. *)
Record Checkbox := {
  checked : bool;
  label : string;
  emits : Z
}.

(** One [<article class="photo-card">]. *)
Record Card := {
  checkbox : option Checkbox;
  link : option string;
  src : string;
  alt : string;
  name : string;
  date : string
}.

Definition card (format : string → string) (props : Props) (photo : Photo)
  : Card :=
  {| checkbox :=
       if selectable props then
         Some {| checked := isSelected props (photo_id photo);
                 label := if isSelected props (photo_id photo) then "Choisie"
                          else "Choisir";
                 emits := photo_id photo |}
       else None;
     link := (λ build, build photo) <$> linkBuilder props;
     src := getPhotoSrc props photo;
     alt := photo_original_name photo;
     name := photo_original_name photo;
     date := formatDate format (photo_created_at photo) |}.

(** What the template renders: the empty-state paragraph
    ([v-if="!photos.length && showEmpty"]) or the grid, one card per photo. *)
Inductive Rendered :=
| EmptyState (text : string)
| Grid (cards : list Card).

Definition render (format : string → string) (props : Props) : Rendered :=
  if bool_decide (length (photos props) = 0) && showEmpty props then
    EmptyState "Aucune photo disponible pour le moment."
  else Grid (card format props <$> photos props).

(** The ids the rendered component can emit with [toggle]. *)
Definition toggles (r : Rendered) : list Z :=
  match r with
  | EmptyState _ => []
  | Grid cards => omap (λ c, emits <$> checkbox c) cards
  end.

(** The checked state the rendered component shows for the cards that emit
    [id]. *)
Definition shownChecked (id : Z) (r : Rendered) : list bool :=
  match r with
  | EmptyState _ => []
  | Grid cards =>
      omap (λ c, match checkbox c with
                 | Some box =>
                     if bool_decide (emits box = id) then Some (checked box)
                     else None
                 | None => None
                 end) cards
  end.

End PhotoGrid.

(** ** The grid as the two views mount it *)
Module Pages.

(** AdminView.vue: [<PhotoGrid v-if="isUnlocked" :photos="photos"
    :selected-ids="selectedIds" :get-photo-src="buildPhotoSrc" ...>]. *)
Definition adminGrid (env : option string) (format : string → string)
    (st : AdminView.State) : option PhotoGrid.Rendered :=
  if AdminView.isUnlocked st then
    Some (PhotoGrid.render format
            {| PhotoGrid.photos := AdminView.photos st;
               PhotoGrid.selectedIds := AdminView.selectedIds st;
               PhotoGrid.selectable := true;
               PhotoGrid.showEmpty := true;
               PhotoGrid.getPhotoSrc :=
                 λ photo, AdminView.buildPhotoSrc env photo st;
               PhotoGrid.linkBuilder := None |})
  else None.

(** ShareView.vue: [<PhotoGrid v-if="!loading && !errorMessage" ...
    :get-photo-src="buildPhotoSrc" :link-builder="buildPhotoSrc" ...>]. *)
Definition shareGrid (env : option string) (format : string → string)
    (v : ShareView.View) : option PhotoGrid.Rendered :=
  if ShareView.galleryVisible (ShareView.refs v) then
    Some (PhotoGrid.render format
            {| PhotoGrid.photos := ShareView.photos (ShareView.refs v);
               PhotoGrid.selectedIds := ShareView.selectedIds (ShareView.refs v);
               PhotoGrid.selectable := true;
               PhotoGrid.showEmpty := true;
               PhotoGrid.getPhotoSrc :=
                 ShareView.buildPhotoSrc env (ShareView.token v);
               PhotoGrid.linkBuilder :=
                 Some (ShareView.buildPhotoSrc env (ShareView.token v)) |})
  else None.

(** The ids a click on the page can pass to the view's [toggleSelection]. *)
Definition clickable (grid : option PhotoGrid.Rendered) : list Z :=
  match grid with
  | Some r => PhotoGrid.toggles r
  | None => []
  end.

(** The checked states the page shows on the boxes of the photo [id]. *)
Definition checkedBoxes (id : Z) (grid : option PhotoGrid.Rendered)
  : list bool :=
  match grid with
  | Some r => PhotoGrid.shownChecked id r
  | None => []
  end.

End Pages.

(** ** Runs of the console *)
Module Console.
Import Http AdminView.

(** Performs the actions in turn on the console, skipping those the page
    does not offer.  Each action settles before the next one starts. *)
Fixpoint session (trim : string → string) (acts : list Action) (st : State)
  : Task State :=
  match acts with
  | [] => Done st
  | a :: rest =>
      if offered a st then st' ← perform trim a st; session trim rest st'
      else session trim rest st
  end.

(** The secret in memory is what a reload would read back from
    [sessionStorage] ([getItem(...) || '']). *)
Definition secretPersisted (st : State) : Prop :=
  adminPassword st = default "" (sessionItem st).

(** No handler is marked as running. *)
Definition idle (st : State) : Prop :=
  uploading st = false ∧ deleting st = false ∧ generating st = false.

(** The selection holds ids of listed photos, each once. *)
Definition selectionValid (st : State) : Prop :=
  selectedIds st ⊆ photo_id <$> photos st ∧ NoDup (selectedIds st).

(** The three together: what every run of the console keeps. *)
Definition steady (st : State) : Prop :=
  secretPersisted st ∧ idle st ∧ selectionValid st.

End Console.

(** ** Characters of a query-string value *)

(** [allChars ok s]: every character of [s] passes [ok]. *)
Fixpoint allChars (ok : ascii → bool) (s : string) : bool :=
  match s with
  | EmptyString => true
  | String c rest => ok c && allChars ok rest
  end.

(** The characters a form-encoded component is made of: those left as they
    are, [+] for a space, and [%] with its hexadecimal digits. *)
Definition encodedChar (c : ascii) : bool :=
  Api.formSafe c || bool_decide (c = "+"%char) || bool_decide (c = "%"%char).

(** Actions of the share view other than a change of route. *)
Definition staysOnShare (a : ShareView.Action) : bool :=
  match a with
  | ShareView.Navigate _ => false
  | _ => true
  end.

(** * Properties *)

#[local] Arguments String.append : simpl nomatch.

(** ** Strings *)
Section Strings.

Lemma append_nil_r (s : string) : s +:+ "" = s.
Proof. induction s as [|c s IH]; simpl; [done | by rewrite IH]. Qed.

Lemma append_assoc (a b c : string) : (a +:+ b) +:+ c = a +:+ (b +:+ c).
Proof. induction a as [|x a IH]; simpl; [done | by rewrite IH]. Qed.



End Strings.

(** ** services/api.js: the base URL *)
Section BaseUrl.
Import Api.






End BaseUrl.

(** ** Tasks *)
Section Tasks.
Import Http.
Context {Σ : Type} (handle : ∀ sh, Request → Σ → Result (payload sh) * Σ).

Lemma run_bind {A B} (t : Task A) (f : A → Task B) (σ : Σ) :
  run handle (t ≫= f) σ =
    let '(a, σ1, tr1) := run handle t σ in
    let '(b, σ2, tr2) := run handle (f a) σ1 in
    (b, σ2, tr1 ++ tr2).
Proof.
  revert σ. induction t as [a | sh r k IH]; intros σ.
  - change (Done a ≫= f) with (f a). simpl.
    by destruct (run handle (f a) σ) as [[b σ2] tr2].
  - change (Await sh r k ≫= f) with (Await sh r (λ res, k res ≫= f)).
    simpl. destruct (handle sh r σ) as [res σ1]. rewrite IH.
    destruct (run handle (k res) σ1) as [[a σ2] tr1].
    by destruct (run handle (f a) σ2) as [[b σ3] tr2].
Qed.

Lemma run_issues {A} (t : Task A) (σ : Σ) (ex : Exchange) :
  ex ∈ (run handle t σ).2 → issues t (ex_request ex).
Proof.
  revert σ. induction t as [a | sh r k IH]; intros σ; simpl.
  - by intros ?%elem_of_nil.
  - destruct (handle sh r σ) as [res σ1].
    specialize (IH res σ1).
    destruct (run handle (k res) σ1) as [[a σ2] tr]. simpl in *.
    intros [-> | Hin]%elem_of_cons; [by left | right; eauto].
Qed.

Lemma run_outcome {A} (t : Task A) (σ : Σ) :
  outcome t (run handle t σ).1.1.
Proof.
  revert σ. induction t as [a | sh r k IH]; intros σ; simpl; [done|].
  destruct (handle sh r σ) as [res σ1]. specialize (IH res σ1).
  destruct (run handle (k res) σ1) as [[a σ2] tr]. simpl in *. eauto.
Qed.

End Tasks.

Section TaskFacts.
Import Http.

Lemma issues_bind {A B} (t : Task A) (f : A → Task B) (r : Request) :
  issues (t ≫= f) r ↔ issues t r ∨ ∃ a, outcome t a ∧ issues (f a) r.
Proof.
  induction t as [a | sh r0 k IH].
  - change (Done a ≫= f) with (f a). simpl. split.
    + intros H. right. eauto.
    + intros [[] | (a' & -> & H)]. done.
  - change (Await sh r0 k ≫= f) with (Await sh r0 (λ res, k res ≫= f)).
    simpl. split.
    + intros [-> | [res H]]; [by left; left|].
      apply IH in H as [H | (a & Ho & H)]; [left; right; eauto|].
      right. exists a. eauto.
    + intros [[-> | [res H]] | (a & [res Ho] & H)]; [by left | |].
      * right. exists res. apply IH. by left.
      * right. exists res. apply IH. right. eauto.
Qed.

Lemma outcome_bind {A B} (t : Task A) (f : A → Task B) (b : B) :
  outcome (t ≫= f) b ↔ ∃ a, outcome t a ∧ outcome (f a) b.
Proof.
  induction t as [a | sh r0 k IH].
  - change (Done a ≫= f) with (f a). simpl. split; [eauto|].
    by intros (a' & -> & H).
  - change (Await sh r0 k ≫= f) with (Await sh r0 (λ res, k res ≫= f)).
    simpl. split.
    + intros [res (a & Ho & H)%IH]. eauto.
    + intros (a & [res Ho] & H). exists res. apply IH. eauto.
Qed.

End TaskFacts.

(** ** services/api.js: the query string of the admin file URL *)
Section FormEncoding.
Import Api.

Lemma formDecode_byte (c : ascii) (rest : string) :
  formDecode (formEncodeByte c +:+ rest) = String c <$> formDecode rest.
Proof.
  destruct c as [[] [] [] [] [] [] [] []]; cbv [formEncodeByte];
    vm_compute formSafe;
    cbv iota; try (case_decide; [discriminate|]); try reflexivity.
  all: cbn -[formDecode]; simpl; by destruct (formDecode rest).
Qed.

Lemma formDecode_formEncode (s : string) : formDecode (formEncode s) = Some s.
Proof.
  induction s as [|c s IH]; [done|].
  simpl formEncode. by rewrite formDecode_byte, IH.
Qed.

Lemma splitAtEquals_byte (c : ascii) (rest : string) :
  splitAtEquals (formEncodeByte c +:+ rest) =
    (λ p, (formEncodeByte c +:+ p.1, p.2)) <$> splitAtEquals rest.
Proof.
  destruct c as [[] [] [] [] [] [] [] []]; cbv [formEncodeByte];
    vm_compute formSafe;
    cbv iota; try (case_decide; [discriminate|]);
    cbn -[splitAtEquals]; simpl;
    by destruct (splitAtEquals rest) as [[k v]|].
Qed.

Lemma splitAtEquals_formEncode (k v : string) :
  splitAtEquals (formEncode k +:+ "=" +:+ v) = Some (formEncode k, v).
Proof.
  induction k as [|c k IH]; [done|].
  simpl formEncode. rewrite append_assoc, splitAtEquals_byte, IH. done.
Qed.

Lemma parsePair_passwordParams (password : string) :
  parsePair (passwordParams password) = Some ("password", password).
Proof.
  unfold parsePair, passwordParams.
  rewrite splitAtEquals_formEncode, !formDecode_formEncode. done.
Qed.

Example photoFileUrl_encoded :
  photoFileUrl None 12 "p@ss word/é" =
    "http://localhost:5000/photos/12/file?password=p%40ss+word%2F%C3%A9".
Proof. reflexivity. Qed.

Example formDecode_encoded :
  formDecode "p%40ss+word%2F%C3%A9" = Some "p@ss word/é".
Proof. reflexivity. Qed.

End FormEncoding.

(** ** The requests of the console *)
Section AdminRequests.
Import Http AdminView.

Lemma issues_fetchPhotos (st : State) (r : Request) :
  issues (fetchPhotos st) r →
  r = api_get "/photos" (Api.adminHeaders (adminPassword st))
  ∧ isUnlocked st = true.
Proof.
  unfold fetchPhotos. destruct (isUnlocked st); simpl; [|done].
  intros [-> | [[d|e] []]]. done.
Qed.

(** A request made by a task that ends with [fetchPhotos]. *)
Lemma issues_then_fetchPhotos (st : State) (f : State → State) (r : Request) :
  issues (fetchPhotos st ≫= λ st2, Done (f st2)) r →
  r = api_get "/photos" (Api.adminHeaders (adminPassword st)).
Proof.
  intros [H | (a & _ & [])]%issues_bind.
  by apply issues_fetchPhotos in H as [-> _].
Qed.

Lemma issues_handleUpload (files : list File) (st : State) (r : Request) :
  issues (handleUpload files st) r →
  r = api_post "/images/add" (Multipart ((λ f, ("photos", f)) <$> files))
        (<["Content-Type" := "multipart/form-data"]>
           (Api.adminHeaders (adminPassword st))) None
  ∨ r = api_get "/photos" (Api.adminHeaders (adminPassword st)).
Proof.
  unfold handleUpload.
  destruct (bool_decide (files = []) || negb (isUnlocked st)); simpl; [done|].
  intros [-> | [[d|e] H]]; [by left | right | done].
  by apply issues_then_fetchPhotos in H.
Qed.

Lemma issues_deleteSelected (st : State) (r : Request) :
  issues (deleteSelected st) r →
  r = api_delete "/photos" (Api.adminHeaders (adminPassword st))
        (Json {[ "photo_ids" := selectedIds st ]})
  ∨ r = api_get "/photos" (Api.adminHeaders (adminPassword st)).
Proof.
  unfold deleteSelected.
  destruct (bool_decide (selectionCount st = 0)); simpl; [done|].
  intros [-> | [[d|e] H]]; [by left | right | done].
  by apply issues_then_fetchPhotos in H.
Qed.

Lemma issues_generateShare (st : State) (r : Request) :
  issues (generateShare st) r →
  r = api_post "/shares" (Json {[ "photo_ids" := selectedIds st ]})
        (Api.adminHeaders (adminPassword st)) None.
Proof.
  unfold generateShare.
  destruct (bool_decide (selectionCount st = 0)); simpl; [done|].
  by intros [-> | [[d|e] []]].
Qed.

Lemma issues_unlock (trim : string → string) (st : State) (r : Request) :
  issues (unlock trim st) r →
  r = api_get "/photos" (Api.adminHeaders (trim (passwordInput st))).
Proof.
  unfold unlock. case_decide; simpl; [done|].
  intros [-> _]%issues_fetchPhotos. unfold persistPassword.
  by destruct (isUnlocked _).
Qed.

Lemma issues_mounted (st : State) (r : Request) :
  issues (mounted st) r →
  r = api_get "/photos" (Api.adminHeaders (adminPassword st)).
Proof.
  unfold mounted. destruct (isUnlocked st); [|done].
  by intros [-> _]%issues_fetchPhotos.
Qed.

End AdminRequests.

(** ** The requests of the share view *)
Section ShareRequests.
Import Http ShareView.

Lemma issues_fetchShare (token : string) (st : State) (r : Request) :
  issues (fetchShare token st) r → r = api_get ("/shares/" +:+ token) ∅.
Proof. simpl. by intros [-> | [[d|e] []]]. Qed.

Lemma issues_downloadPhotos (token : string) (ids : list Z) (st : State)
    (r : Request) :
  issues (downloadPhotos token ids st) r →
  photos st ≠ []
  ∧ r = api_post ("/shares/" +:+ token +:+ "/download")
          (Json (if bool_decide (length ids = 0) then ∅
                 else {[ "photo_ids" := ids ]}))
          ∅ (Some "blob").
Proof.
  unfold downloadPhotos. case_bool_decide as Hlen; simpl; [done|].
  intros [-> | [[d|e] []]]. split; [|done]. intros Heq. apply Hlen. by rewrite Heq.
Qed.

Lemma issues_downloadSelected (token : string) (st : State) (r : Request) :
  issues (downloadSelected token st) r →
  photos st ≠ [] ∧ selectedIds st ≠ []
  ∧ r = api_post ("/shares/" +:+ token +:+ "/download")
          (Json {[ "photo_ids" := selectedIds st ]}) ∅ (Some "blob").
Proof.
  unfold downloadSelected. case_bool_decide as Hlen; simpl; [done|].
  intros [Hp ->]%issues_downloadPhotos.
  rewrite bool_decide_false by done.
  split_and!; [done | | done]. intros Heq. apply Hlen. by rewrite Heq.
Qed.

Lemma issues_downloadAll (token : string) (st : State) (r : Request) :
  issues (downloadAll token st) r →
  photos st ≠ []
  ∧ r = api_post ("/shares/" +:+ token +:+ "/download") (Json ∅) ∅
          (Some "blob").
Proof. by intros [Hp ->]%issues_downloadPhotos. Qed.

Lemma issues_perform (a : Action) (v : View) (r : Request) :
  issues (perform a v) r →
  match a with
  | Navigate t => r = api_get ("/shares/" +:+ t) ∅
  | Toggle _ => False
  | DownloadSelected =>
      r = api_post ("/shares/" +:+ token v +:+ "/download")
            (Json {[ "photo_ids" := selectedIds (refs v) ]}) ∅ (Some "blob")
      ∧ selectedIds (refs v) ≠ []
  | DownloadAll =>
      r = api_post ("/shares/" +:+ token v +:+ "/download") (Json ∅) ∅
            (Some "blob")
  end.
Proof.
  destruct a as [t | id | |]; unfold perform; [| done | |].
  - intros [H | (a & _ & [])]%issues_bind. by apply issues_fetchShare in H.
  - intros [H | (a & _ & [])]%issues_bind.
    by apply issues_downloadSelected in H as (_ & ? & ->).
  - intros [H | (a & _ & [])]%issues_bind.
    by apply issues_downloadAll in H as (_ & ->).
Qed.

End ShareRequests.

(** ** Who presents the admin secret *)
Section Secret.
Import Http.

(** Membership in a list written out. *)
Ltac in_list :=
  repeat (apply elem_of_cons; first [left; reflexivity | right]).

(** C1. Every request the console makes goes to a privileged endpoint
    ([GET /photos], [POST /images/add], [DELETE /photos], [POST /shares]) and
    carries the admin secret it holds in the [X-Admin-Password] header (for
    the unlock button, the secret just typed); the admin file URL, which the
    console builds with the secret it holds, carries it as the [password]
    query parameter; every request of the share view
    ([GET /shares/{token}], [POST /shares/{token}/download]) has no header at
    all and a body with at most the [photo_ids] field, and the share file
    URL is the base, the token and the photo id, with no query string. *)
Theorem secret_presented_by_console_only :
  (∀ (trim : string → string) (a : AdminView.Action) (st : AdminView.State)
     (r : Request),
     issues (AdminView.perform trim a st) r →
     (method r, url r) ∈ [(GET, "/photos"); (POST, "/images/add");
                          (DELETE, "/photos"); (POST, "/shares")]
     ∧ headers r !! "X-Admin-Password" =
         Some (match a with
               | AdminView.Unlock => trim (AdminView.passwordInput st)
               | _ => AdminView.adminPassword st
               end))
  ∧ (∀ (env : option string) (id : Z) (password : string),
       Api.photoFileUrl env id password =
         Api.apiBaseUrl env +:+ "/photos/" +:+ pretty id +:+ "/file?"
         +:+ Api.passwordParams password
       ∧ Api.parsePair (Api.passwordParams password)
         = Some ("password", password))
  ∧ (∀ (t : string) (r : Request),
       issues (ShareView.mount t) r →
       r = api_get ("/shares/" +:+ t) ∅)
  ∧ (∀ (a : ShareView.Action) (v : ShareView.View) (r : Request),
       issues (ShareView.perform a v) r →
       headers r = ∅
       ∧ ((method r = GET ∧ body r = NoBody
           ∧ ∃ t, url r = "/shares/" +:+ t)
          ∨ (method r = POST
             ∧ url r = "/shares/" +:+ ShareView.token v +:+ "/download"
             ∧ ∃ fields, body r = Json fields
                         ∧ ∀ name, is_Some (fields !! name) →
                                   name = "photo_ids")))
  ∧ (∀ (env : option string) (token : string) (id : Z),
       Api.shareFileUrl env token id =
         Api.apiBaseUrl env +:+ "/shares/" +:+ token +:+ "/files/"
         +:+ pretty id)
  ∧ (∀ (env : option string) (photo : Photo) (st : AdminView.State),
       AdminView.isUnlocked st = true →
       AdminView.buildPhotoSrc env photo st =
         Api.photoFileUrl env (photo_id photo) (AdminView.adminPassword st))
  ∧ (∀ (env : option string) (token : string) (photo : Photo),
       ShareView.buildPhotoSrc env token photo =
         Api.shareFileUrl env token (photo_id photo)).
Proof.
  split_and!.
  - intros trim a st r H.
    destruct a as [| | files | id | | |]; unfold AdminView.perform in H.
    + apply issues_unlock in H as ->. split; [|done].
      in_list.
    + apply issues_fetchPhotos in H as [-> _]. split; [|done].
      in_list.
    + apply issues_handleUpload in H as [-> | ->]; (split; [|done]).
      * in_list.
      * in_list.
    + done.
    + apply issues_deleteSelected in H as [-> | ->]; (split; [|done]).
      * in_list.
      * in_list.
    + apply issues_generateShare in H as ->. split; [|done].
      in_list.
    + apply issues_mounted in H as ->. split; [|done].
      in_list.
  - intros env id password. split; [done|]. apply parsePair_passwordParams.
  - intros t r [H | (a & _ & [])]%issues_bind.
    by apply issues_fetchShare in H.
  - intros a v r H. apply issues_perform in H.
    destruct a as [t | id | |]; [| done | |].
    + subst r. split; [done|]. left. split_and!; [done..|]. by exists t.
    + destruct H as [-> _]. split; [done|]. right. split_and!; [done..|].
      eexists. split; [done|]. intros name [ids Hn].
      by apply lookup_singleton_Some in Hn as [<- _].
    + subst r. split; [done|]. right. split_and!; [done..|].
      exists ∅. split; [done|]. intros name [ids Hn].
      by rewrite lookup_empty in Hn.
  - done.
  - intros env photo st Hunl. unfold AdminView.buildPhotoSrc. by rewrite Hunl.
  - done.
Qed.

(** The share button of an unlocked console with photos 1 and 2 selected. *)
Lemma secret_presented_witness :
  let st := AdminView.set_selectedIds [1; 2]%Z
              (AdminView.initial (Some "s3cret")) in
  let r := api_post "/shares" (Json {[ "photo_ids" := [1; 2]%Z ]})
             (Api.adminHeaders "s3cret") None in
  issues (AdminView.perform (λ s, s) AdminView.Share st) r
  ∧ headers r !! "X-Admin-Password" = Some "s3cret".
Proof.
  intros st r.
  assert (issues (AdminView.perform (λ s, s) AdminView.Share st) r) as H.
  { simpl. left. reflexivity. }
  split; [exact H|].
  exact (proj2 (proj1 secret_presented_by_console_only _ _ st r H)).
Defined.

End Secret.

(** ** The body of an archive download *)
Section ArchiveBody.
Import Http ShareView.

Lemma downloadPhotos_issues (token : string) (ids : list Z) (st : State) :
  photos st ≠ [] →
  issues (downloadPhotos token ids st)
    (api_post ("/shares/" +:+ token +:+ "/download")
       (Json (if bool_decide (length ids = 0) then ∅
              else {[ "photo_ids" := ids ]}))
       ∅ (Some "blob")).
Proof.
  intros Hp. unfold downloadPhotos. rewrite bool_decide_false.
  - simpl. by left.
  - by destruct (photos st).
Qed.

(** C2. Every request [downloadPhotos] makes is a
    [POST /shares/{token}/download] whose JSON body has a [photo_ids] field
    exactly when the requested subset is not empty: the body is
    [{photo_ids: ids}] for a non-empty [ids] and the empty object
    otherwise.  Download-all sends the empty object, downloading a
    non-empty selection sends [{photo_ids: selectedIds}], and with photos on
    the page both requests are indeed made. *)
Theorem archive_body_photo_ids_iff_nonempty :
  (∀ (token : string) (ids : list Z) (st : State) (r : Request),
     issues (downloadPhotos token ids st) r →
     method r = POST
     ∧ url r = "/shares/" +:+ token +:+ "/download"
     ∧ (hasField "photo_ids" (body r) = true ↔ ids ≠ [])
     ∧ (ids ≠ [] → body r = Json {[ "photo_ids" := ids ]})
     ∧ (ids = [] → body r = Json ∅))
  ∧ (∀ (token : string) (st : State) (r : Request),
       issues (downloadAll token st) r →
       body r = Json ∅ ∧ hasField "photo_ids" (body r) = false)
  ∧ (∀ (token : string) (st : State) (r : Request),
       issues (downloadSelected token st) r →
       selectedIds st ≠ []
       ∧ body r = Json {[ "photo_ids" := selectedIds st ]}
       ∧ hasField "photo_ids" (body r) = true)
  ∧ (∀ (token : string) (st : State),
       photos st ≠ [] →
       (∃ r, issues (downloadAll token st) r)
       ∧ (selectedIds st ≠ [] → ∃ r, issues (downloadSelected token st) r)).
Proof.
  split_and!.
  - intros token ids st r [_ ->]%issues_downloadPhotos.
    split_and!; [done..| | |].
    + destruct ids as [|i ids]; simpl; [done|]. split; [done|]. intros _.
      apply bool_decide_eq_true. rewrite lookup_singleton_eq. by eexists.
    + intros Hne. by destruct ids.
    + by intros ->.
  - by intros token st r [_ ->]%issues_downloadAll.
  - intros token st r (_ & Hne & ->)%issues_downloadSelected.
    split_and!; [done..|]. simpl.
    apply bool_decide_eq_true. rewrite lookup_singleton_eq. by eexists.
  - intros token st Hp. split.
    + eexists. by apply downloadPhotos_issues.
    + intros Hs. eexists. unfold downloadSelected.
      rewrite bool_decide_false by by destruct (selectedIds st).
      by apply downloadPhotos_issues.
Qed.

(** A share of one photo, photo 7 selected: the selection is downloaded. *)
Lemma archive_body_witness :
  let p := {| photo_id := 7; photo_original_name := "a.jpg";
              photo_created_at := "2024-01-01" |} in
  let st := toggleSelection 7 (set_photos [p] initial) in
  let r := api_post "/shares/tok/download" (Json {[ "photo_ids" := [7%Z] ]})
             ∅ (Some "blob") in
  issues (downloadSelected "tok" st) r
  ∧ hasField "photo_ids" (body r) = true.
Proof.
  intros p st r.
  assert (issues (downloadSelected "tok" st) r) as H.
  { simpl. left. reflexivity. }
  split; [exact H|].
  exact (proj2 (proj2
    (proj1 (proj2 (proj2 archive_body_photo_ids_iff_nonempty)) "tok" st r H))).
Defined.

End ArchiveBody.

(** ** Toggling a photo *)
Section Toggle.

Lemma admin_toggle_selectedIds (id : Z) (st : AdminView.State) :
  AdminView.selectedIds (AdminView.toggleSelection id st)
  = toggled id (AdminView.selectedIds st).
Proof.
  unfold AdminView.toggleSelection, toggled.
  by destruct (bool_decide (id ∈ AdminView.selectedIds st)).
Qed.

Lemma share_toggle_selectedIds (id : Z) (st : ShareView.State) :
  ShareView.selectedIds (ShareView.toggleSelection id st)
  = toggled id (ShareView.selectedIds st).
Proof.
  unfold ShareView.toggleSelection, toggled.
  by destruct (bool_decide (id ∈ ShareView.selectedIds st)).
Qed.

Lemma toggled_self (id : Z) (ids : list Z) : id ∈ toggled id ids ↔ id ∉ ids.
Proof.
  unfold toggled. case_bool_decide as Hin.
  - rewrite list_elem_of_filter. tauto.
  - rewrite elem_of_app, list_elem_of_singleton. tauto.
Qed.

Lemma toggled_other (id j : Z) (ids : list Z) :
  j ≠ id → j ∈ toggled id ids ↔ j ∈ ids.
Proof.
  intros Hne. unfold toggled. case_bool_decide as Hin.
  - rewrite list_elem_of_filter. tauto.
  - rewrite elem_of_app, list_elem_of_singleton. tauto.
Qed.

Lemma toggled_twice (id j : Z) (ids : list Z) :
  j ∈ toggled id (toggled id ids) ↔ j ∈ ids.
Proof.
  destruct (decide (j = id)) as [-> | Hne].
  - rewrite toggled_self, toggled_self. split; [|tauto].
    intros H. by destruct (decide (id ∈ ids)).
  - by rewrite !toggled_other.
Qed.

Lemma toggled_present (id : Z) (ids : list Z) :
  id ∈ ids → toggled id ids = filter (λ value, value ≠ id) ids.
Proof. intros Hin. unfold toggled. by rewrite bool_decide_true. Qed.

Lemma toggled_absent (id : Z) (ids : list Z) :
  id ∉ ids → toggled id ids = ids ++ [id].
Proof. intros Hin. unfold toggled. by rewrite bool_decide_false. Qed.

(** C9. [toggleSelection] flips the membership of its id and of no other:
    a present id is removed (every occurrence of it: the selection becomes
    the others, in order), an absent id is appended at the end, any other
    id stays in or out as it was, and two applications in a row give back
    the original membership.  The handler of the console and the one of the
    share view compute the same selection from the same selection, and
    touch no other ref. *)
Theorem toggleSelection_involution (id : Z) (ids : list Z)
    (adm : AdminView.State) (shr : ShareView.State)
    (Hadm : AdminView.selectedIds adm = ids)
    (Hshr : ShareView.selectedIds shr = ids) :
  let adm' := AdminView.toggleSelection id adm in
  let shr' := ShareView.toggleSelection id shr in
  AdminView.selectedIds adm' = ShareView.selectedIds shr'
  ∧ (id ∈ ids →
     ShareView.selectedIds shr' = filter (λ value, value ≠ id) ids
     ∧ id ∉ ShareView.selectedIds shr')
  ∧ (id ∉ ids →
     ShareView.selectedIds shr' = ids ++ [id]
     ∧ id ∈ ShareView.selectedIds shr')
  ∧ (∀ j, j ≠ id → j ∈ ShareView.selectedIds shr' ↔ j ∈ ids)
  ∧ (∀ j, j ∈ ShareView.selectedIds (ShareView.toggleSelection id shr')
          ↔ j ∈ ids)
  ∧ (∀ j, j ∈ AdminView.selectedIds (AdminView.toggleSelection id adm')
          ↔ j ∈ ids)
  ∧ adm' = AdminView.set_selectedIds (AdminView.selectedIds adm') adm
  ∧ shr' = ShareView.set_selectedIds (ShareView.selectedIds shr') shr.
Proof.
  intros adm' shr'. subst adm' shr'.
  rewrite !admin_toggle_selectedIds, !share_toggle_selectedIds.
  rewrite Hadm, Hshr. split_and!.
  - done.
  - intros Hin. split; [by apply toggled_present|].
    by intros ?%toggled_self.
  - intros Hin. split; [by apply toggled_absent|].
    by rewrite toggled_self.
  - intros j Hne. by apply toggled_other.
  - intros j. apply toggled_twice.
  - intros j. apply toggled_twice.
  - rewrite <- Hadm. unfold AdminView.toggleSelection, toggled.
    by destruct (bool_decide (id ∈ AdminView.selectedIds adm)).
  - rewrite <- Hshr. unfold ShareView.toggleSelection, toggled.
    by destruct (bool_decide (id ∈ ShareView.selectedIds shr)).
Qed.

(** Photo 2 toggled in the selection [1; 2; 3] of both views. *)
Lemma toggleSelection_witness :
  AdminView.selectedIds
    (AdminView.toggleSelection 2
       (AdminView.set_selectedIds [1; 2; 3]%Z (AdminView.initial None)))
  = ShareView.selectedIds
      (ShareView.toggleSelection 2
         (ShareView.set_selectedIds [1; 2; 3]%Z ShareView.initial)).
Proof.
  exact (proj1 (toggleSelection_involution 2 [1; 2; 3]%Z
                  (AdminView.set_selectedIds [1; 2; 3]%Z
                     (AdminView.initial None))
                  (ShareView.set_selectedIds [1; 2; 3]%Z ShareView.initial)
                  eq_refl eq_refl)).
Defined.

Example toggle_removes : toggled 2 [1; 2; 3]%Z = [1; 3]%Z.
Proof. reflexivity. Qed.

Example toggle_appends : toggled 2 [1; 3]%Z = [1; 3; 2]%Z.
Proof. reflexivity. Qed.

End Toggle.

(** ** The base URL and the slash before the path *)
Section Slashes.
Import Http Api.









Example apiBaseUrl_double_slash :
  shareFileUrl (Some "http://h//") "tok" 7 = "http://h//shares/tok/files/7".
Proof. reflexivity. Qed.

End Slashes.

(** ** Failed operations of the console *)
Section AdminErrors.
Import Http AdminView.
Context {Σ : Type} (handle : ∀ sh, Request → Σ → Result (payload sh) * Σ).

Lemma handleError_failedInto (e : AxiosError) (st : State) :
  failedInto e st (handleError e st).
Proof.
  unfold failedInto, handleError, errorBanner.
  destruct (isForbidden e); simpl; split; done.
Qed.

Lemma failedInto_flag (e : AxiosError) (st0 st1 st' st'' : State) :
  adminPassword st1 = adminPassword st0 →
  sessionItem st1 = sessionItem st0 →
  adminPassword st'' = adminPassword st' →
  sessionItem st'' = sessionItem st' →
  errorMessage st'' = errorMessage st' →
  failedInto e st1 st' → failedInto e st0 st''.
Proof.
  intros Hp Hs Hp' Hs' He' [Hf Ho].
  unfold failedInto, isUnlocked, errorBanner in *.
  rewrite Hp', Hs', He', <- Hp, <- Hs. done.
Qed.

Lemma run_fetchPhotos_failed (st : State) (σ : Σ) (ex : Exchange)
    (e : AxiosError) :
  ex ∈ (run handle (fetchPhotos st) σ).2 → ex_error ex = Some e →
  (run handle (fetchPhotos st) σ).1.1 = handleError e st.
Proof.
  unfold fetchPhotos. destruct (isUnlocked st); simpl.
  - destruct (handle PhotoList _ σ) as [[d | e'] σ1]; simpl;
      intros ->%list_elem_of_singleton; cbv [ex_error ex_result];
      congruence.
  - by intros ?%elem_of_nil.
Qed.

Lemma run_then_fetchPhotos_failed (st : State) (f : State → State) (σ : Σ)
    (ex : Exchange) (e : AxiosError) :
  ex ∈ (run handle (fetchPhotos st ≫= λ st2, Done (f st2)) σ).2 →
  ex_error ex = Some e →
  (run handle (fetchPhotos st ≫= λ st2, Done (f st2)) σ).1.1
  = f (handleError e st).
Proof.
  rewrite run_bind.
  pose proof (run_fetchPhotos_failed st σ ex e) as H.
  destruct (run handle (fetchPhotos st) σ) as [[st2 σ2] tr]. simpl in *.
  rewrite (right_id_L [] (++)). intros Hin He. by rewrite H.
Qed.

Lemma run_Await {A} (sh : Shape) (r : Request)
    (k : Result (payload sh) → Task A) (σ : Σ) :
  run handle (Await sh r k) σ =
    let '(res, σ1) := handle sh r σ in
    let '(a, σ2, tr) := run handle (k res) σ1 in
    (a, σ2, Build_Exchange sh r res :: tr).
Proof. reflexivity. Qed.

(** A handler that makes one request, raises a busy flag before it, goes on
    with [fetchPhotos] when it resolves and lowers the flag at the end. *)
Lemma run_guarded_failed (sh : Shape) (r : Request) (st0 st1 : State)
    (next : payload sh → State) (lower : State → State) (σ : Σ)
    (ex : Exchange) (e : AxiosError) :
  let t := Await sh r (λ res,
             match res with
             | Resolved d => fetchPhotos (next d) ≫= λ st2, Done (lower st2)
             | Rejected e => Done (lower (handleError e st1))
             end) in
  adminPassword st1 = adminPassword st0 →
  sessionItem st1 = sessionItem st0 →
  (∀ d, adminPassword (next d) = adminPassword st0
        ∧ sessionItem (next d) = sessionItem st0) →
  (∀ s, adminPassword (lower s) = adminPassword s
        ∧ sessionItem (lower s) = sessionItem s
        ∧ errorMessage (lower s) = errorMessage s) →
  ex ∈ (run handle t σ).2 → ex_error ex = Some e →
  failedInto e st0 (run handle t σ).1.1.
Proof.
  intros t Hp Hs Hnext Hlower. subst t. rewrite run_Await.
  destruct (handle sh r σ) as [[d | e'] σ1].
  - pose proof (run_then_fetchPhotos_failed (next d) lower σ1 ex e) as H.
    destruct (run handle (fetchPhotos (next d) ≫= _) σ1) as [[st2 σ2] tr].
    simpl in *. intros [-> | Hin]%elem_of_cons He; [done|].
    rewrite (H Hin He). destruct (Hnext d), (Hlower (handleError e (next d)))
      as (? & ? & ?).
    eapply failedInto_flag; [..|apply handleError_failedInto]; done.
  - simpl. intros ->%list_elem_of_singleton [= ->].
    destruct (Hlower (handleError e st1)) as (? & ? & ?).
    eapply failedInto_flag; [..|apply handleError_failedInto]; done.
Qed.

Lemma run_perform_failed (trim : string → string) (a : Action) (st : State)
    (σ : Σ) (ex : Exchange) (e : AxiosError) :
  ex ∈ (run handle (perform trim a st) σ).2 → ex_error ex = Some e →
  failedInto e (atRequest trim a st) (run handle (perform trim a st) σ).1.1.
Proof.
  destruct a as [| | files | id | | |]; unfold perform, atRequest.
  - unfold unlock. case_decide; [by intros ?%elem_of_nil|].
    intros Hin He. rewrite (run_fetchPhotos_failed _ _ _ _ Hin He).
    apply handleError_failedInto.
  - intros Hin He. rewrite (run_fetchPhotos_failed _ _ _ _ Hin He).
    apply handleError_failedInto.
  - unfold handleUpload.
    destruct (bool_decide (files = []) || negb (isUnlocked st));
      [by intros ?%elem_of_nil|].
    apply (run_guarded_failed Ignored _ st (set_uploading true st)
             (λ _, set_statusMessage _ (set_uploading true st))
             (set_uploading false)); done.
  - by intros ?%elem_of_nil.
  - unfold deleteSelected.
    destruct (bool_decide (selectionCount st = 0));
      [by intros ?%elem_of_nil|].
    apply (run_guarded_failed Ignored _ st (set_deleting true st)
             (λ _, set_shareDetails None
                     (set_statusMessage _ (set_deleting true st)))
             (set_deleting false)); done.
  - unfold generateShare.
    destruct (bool_decide (selectionCount st = 0));
      [by intros ?%elem_of_nil|].
    rewrite run_Await.
    destruct (handle ShareCreated _ σ) as [[d | e'] σ1]; simpl;
      intros ->%list_elem_of_singleton; [done|]. intros [= ->].
    eapply (failedInto_flag _ _ (set_generating true st));
      [..|apply handleError_failedInto]; done.
  - unfold mounted. destruct (isUnlocked st); [|by intros ?%elem_of_nil].
    intros Hin He. rewrite (run_fetchPhotos_failed _ _ _ _ Hin He).
    apply handleError_failedInto.
Qed.

End AdminErrors.

Section AdminFailure.
Import Http AdminView Samples.

(** What a rejected request of a console operation leaves in the refs.
    On a response with status 403 the secret in memory becomes empty, the
    [sessionStorage] item is removed, the console is locked and shows
    ['Mot de passe invalide.'].  On any other error the secret and the
    stored item are those of the moment the request was made, and
    [errorMessage] becomes [errorText e]: the [data] of the response when it
    is neither [undefined] nor [null], else ['Erreur inattendue']. *)
Lemma rejected_operation_refs {Σ : Type}
    (handle : ∀ sh, Request → Σ → Result (payload sh) * Σ)
    (trim : string → string) (a : Action) (st : State) (σ : Σ)
    (ex : Exchange) (e : AxiosError)
    (Hin : ex ∈ (run handle (perform trim a st) σ).2)
    (He : ex_error ex = Some e) :
  let st' := (run handle (perform trim a st) σ).1.1 in
  let st0 := atRequest trim a st in
  (isForbidden e = true ↔ ∃ resp, response e = Some resp ∧ status resp = 403%Z)
  ∧ (isForbidden e = true →
     adminPassword st' = "" ∧ sessionItem st' = None
     ∧ isUnlocked st' = false
     ∧ errorBanner st' = Some "Mot de passe invalide.")
  ∧ (isForbidden e = false →
     adminPassword st' = adminPassword st0
     ∧ sessionItem st' = sessionItem st0
     ∧ errorMessage st' = errorText e
     ∧ (errorText e ≠ "" → errorBanner st' = Some (errorText e)))
  ∧ (∀ resp d, response e = Some resp → data resp = Some d → errorText e = d)
  ∧ (response e = None ∨ (∃ resp, response e = Some resp ∧ data resp = None) →
     errorText e = "Erreur inattendue").
Proof.
  intros st' st0.
  destruct (run_perform_failed handle trim a st σ ex e Hin He) as [Hf Ho].
  fold st' st0 in Hf, Ho. split_and!.
  - unfold isForbidden. destruct (response e) as [resp|].
    + rewrite bool_decide_eq_true. split; [by eauto|].
      by intros (resp' & [= <-] & ?).
    + split; [done|]. by intros (resp' & [=] & ?).
  - intros H. destruct (Hf H) as (Hp & Hs & Hu & Hm).
    split_and!; [done..|]. unfold errorBanner. by rewrite Hm.
  - intros H. destruct (Ho H) as (Hp & Hs & Hm & Hb).
    split_and!; [done..|].
    intros Hne. by rewrite Hb, decide_False.
  - intros resp d Hr Hd. unfold errorText. by rewrite Hr, Hd.
  - intros [Hr | (resp & Hr & Hd)]; unfold errorText; rewrite Hr; [done|].
    by rewrite Hd.
Qed.

(** A refresh refused with 403: the console is locked again. *)
Lemma rejected_operation_refused :
  let e := {| response := Some {| status := 403; data := Some "Forbidden" |} |} in
  let out := run (refusing e) (perform (λ s, s) Refresh (initial (Some "admin")))
               () in
  adminPassword out.1.1 = "" ∧ sessionItem out.1.1 = None.
Proof.
  intros e out.
  pose (ex := Build_Exchange PhotoList
                (api_get "/photos" (Api.adminHeaders "admin")) (Rejected e)).
  assert (ex ∈ out.2) as Hin by (apply list_elem_of_singleton; reflexivity).
  destruct (proj1 (proj2 (rejected_operation_refs (refusing e)
              (λ s, s) Refresh (initial (Some "admin")) () ex e Hin eq_refl))
              eq_refl) as (Hp & Hs & _).
  exact (conj Hp Hs).
Defined.

(** C4. The console does tell the unauthorized signal from every other
    error, but it does not always display a message for the others.  A
    refresh of the console unlocked with ["admin"] is rejected with status
    500 and the empty string as [data]: the request was made and failed, the
    error is not the unauthorized signal, the secret in memory and the
    stored one are kept, and [handleError] sets [errorMessage] to the empty
    string, because [??] replaces [undefined] and [null] only; the
    [v-if] on [errorMessage] then renders no error paragraph, so neither a
    message of the server nor ['Erreur inattendue'] is displayed.  The
    handlers of the share page read the same error with [||] and do show
    their fallback. *)
Theorem admin_failure_empty_data_shows_nothing :
  let e := {| response := Some {| status := 500; data := Some "" |} |} in
  let out := run (refusing e) (perform (λ s, s) Refresh (initial (Some "admin")))
               () in
  (∃ ex, ex ∈ out.2 ∧ ex_error ex = Some e)
  ∧ isForbidden e = false
  ∧ adminPassword out.1.1 = "admin"
  ∧ sessionItem out.1.1 = Some "admin"
  ∧ errorMessage out.1.1 = ""
  ∧ errorMessage out.1.1 ≠ "Erreur inattendue"
  ∧ errorBanner out.1.1 = None
  ∧ ShareView.errorText "Partage introuvable." e = "Partage introuvable.".
Proof.
  intros e out. split_and!; try reflexivity; [|discriminate].
  eexists. split; [apply list_elem_of_singleton; reflexivity | reflexivity].
Qed.

End AdminFailure.

(** ** Resolving a share *)
Section Resolve.
Import Http ShareView Samples.

Lemma share_errorText_cases (fallback : string) (e : AxiosError) :
  (∃ resp d, response e = Some resp ∧ data resp = Some d ∧ d ≠ ""
             ∧ errorText fallback e = d)
  ∨ errorText fallback e = fallback.
Proof.
  unfold errorText. destruct (response e) as [resp|]; [|by right].
  destruct (data resp) as [d|] eqn:Hd; [|by right].
  case_decide; [by right|]. left. by exists resp, d.
Qed.

Lemma share_errorText_nonempty (fallback : string) (e : AxiosError) :
  fallback ≠ "" → errorText fallback e ≠ "".
Proof.
  intros Hf. destruct (share_errorText_cases fallback e)
    as [(resp & d & _ & _ & Hd & ->) | ->]; done.
Qed.

Lemma share_errorText_truthy (fallback : string) (e : AxiosError) :
  fallback ≠ "" → Text (errorText fallback e) ≠ "".
Proof. intros Hf [= H]. by apply (share_errorText_nonempty fallback e). Qed.

Lemma run_fetchShare {Σ : Type}
    (handle : ∀ sh, Request → Σ → Result (payload sh) * Σ)
    (token : string) (st : State) (σ : Σ) :
  let req := api_get ("/shares/" +:+ token) ∅ in
  run handle (fetchShare token st) σ =
    (match (handle ShareInfo req σ).1 with
     | Resolved d =>
         {| photos := share_photos d; selectedIds := []; loading := false;
            errorMessage := ""; shareDate := share_created_at d;
            downloads := downloads st |}
     | Rejected e =>
         {| photos := photos st; selectedIds := selectedIds st;
            loading := false;
            errorMessage := errorText "Partage introuvable." e;
            shareDate := shareDate st; downloads := downloads st |}
     end,
     (handle ShareInfo req σ).2,
     [Build_Exchange ShareInfo req (handle ShareInfo req σ).1]).
Proof.
  intros req. unfold fetchShare. fold req. simpl.
  by destruct (handle ShareInfo req σ) as [[d | e] σ1].
Qed.

(** C3 (amended). [fetchShare] makes exactly one request,
    [GET /shares/{token}], with no header and no body.  When it resolves,
    the refs afterwards are a function of the [photos] and [created_at]
    fields of the response alone (the photo list, the share date, an empty
    selection, no error).  When it is rejected, the error message is the
    [data] of the response when there is one and it is not empty, else
    ['Partage introuvable.']; the page shows it and renders no gallery, and
    the photo list, the selection and the date are left as they were; in
    particular the photo list is empty when the view was just mounted. *)
Theorem fetchShare_resolves_or_reports {Σ : Type}
    (handle : ∀ sh, Request → Σ → Result (payload sh) * Σ)
    (token : string) (st : State) (σ : Σ) :
  let req := api_get ("/shares/" +:+ token) ∅ in
  let out := run handle (fetchShare token st) σ in
  headers req = ∅ ∧ body req = NoBody ∧ method req = GET
  ∧ ∃ res, out.2 = [Build_Exchange ShareInfo req res]
    ∧ match res with
      | Resolved d =>
          out.1.1 =
            {| photos := share_photos d; selectedIds := []; loading := false;
               errorMessage := ""; shareDate := share_created_at d;
               downloads := downloads st |}
      | Rejected e =>
          let msg := errorText "Partage introuvable." e in
          ((∃ resp d, response e = Some resp ∧ data resp = Some d ∧ d ≠ ""
                      ∧ msg = d)
           ∨ msg = "Partage introuvable.")
          ∧ errorBanner out.1.1 = Some (Text msg)
          ∧ galleryVisible out.1.1 = false
          ∧ photos out.1.1 = photos st
          ∧ selectedIds out.1.1 = selectedIds st
          ∧ shareDate out.1.1 = shareDate st
          ∧ photos (run handle (fetchShare token initial) σ).1.1 = []
      end.
Proof.
  intros req out. split_and!; [done..|]. subst out.
  rewrite !run_fetchShare. fold req.
  exists (handle ShareInfo req σ).1. split; [done|].
  destruct (handle ShareInfo req σ).1 as [d | e]; [done|]. simpl.
  pose proof (share_errorText_truthy "Partage introuvable." e) as Hne.
  split_and!; try done.
  - apply share_errorText_cases.
  - unfold errorBanner. simpl. rewrite decide_False; [done|]. by apply Hne.
  - unfold galleryVisible. simpl. rewrite bool_decide_false; [done|].
    by apply Hne.
Qed.

(** C3, as stated, fails when the view already shows a share: mounted on
    the share [a] and then sent to the unknown token [b], the view reports
    the error and hides the gallery, but its photo list still holds the
    photo of [a]. *)
Lemma fetchShare_keeps_photos_counterexample :
  let out := run oneShare (mount "a" ≫= session [Navigate "b"]) () in
  (∃ ex, last out.2 = Some ex
         ∧ ex_request ex = api_get "/shares/b" ∅
         ∧ ex_error ex = Some notFound)
  ∧ errorBanner (refs out.1.1) = Some (Text "Share not found")
  ∧ galleryVisible (refs out.1.1) = false
  ∧ photos (refs out.1.1) = [photo7]
  ∧ photos (refs out.1.1) ≠ [].
Proof.
  intros out. split_and!; [|reflexivity..|discriminate].
  eexists. split; [reflexivity|]. split; reflexivity.
Qed.

End Resolve.

(** ** The selection of the share view *)
Section Selection.
Import Http ShareView Samples.

Lemma outcome_fetchShare (token : string) (st st' : State) :
  outcome (fetchShare token st) st' →
  (selectedIds st' = [])
  ∨ (photos st' = photos st ∧ selectedIds st' = selectedIds st).
Proof. simpl. intros [[d | e] ->]; [by left | by right]. Qed.

Lemma outcome_downloadPhotos (token : string) (ids : list Z) (st st' : State) :
  outcome (downloadPhotos token ids st) st' →
  photos st' = photos st ∧ selectedIds st' = selectedIds st.
Proof.
  unfold downloadPhotos. case_bool_decide; simpl; [by intros ->|].
  by intros [[d | e] ->].
Qed.

Lemma toggled_subseteq (id : Z) (ids all : list Z) :
  id ∈ all → ids ⊆ all → toggled id ids ⊆ all.
Proof.
  intros Hid Hsub j. destruct (decide (j = id)) as [-> | Hne]; [done|].
  rewrite toggled_other by done. apply Hsub.
Qed.

Lemma perform_selectionValid (a : Action) (v v' : View) :
  enabled a v = true → selectionValid (refs v) →
  outcome (perform a v) v' → selectionValid (refs v').
Proof.
  unfold selectionValid, displayedIds.
  destruct a as [t | id | |]; unfold perform; intros Hen Hinv.
  - intros (st' & Ho & ->)%outcome_bind. simpl.
    apply outcome_fetchShare in Ho as [-> | [-> ->]]; [|done].
    by intros j ?%elem_of_nil.
  - simpl. intros ->. simpl. rewrite share_toggle_selectedIds.
    assert (photos (toggleSelection id (refs v)) = photos (refs v)) as ->.
    { unfold toggleSelection. by destruct (bool_decide _). }
    apply toggled_subseteq; [|done]. simpl in Hen.
    apply andb_true_iff in Hen as [_ Hid].
    by apply bool_decide_eq_true in Hid.
  - intros (st' & Ho & ->)%outcome_bind. simpl. unfold downloadSelected in Ho.
    destruct (bool_decide _); [by simpl in Ho; subst st'|].
    by apply outcome_downloadPhotos in Ho as [-> ->].
  - intros (st' & Ho & ->)%outcome_bind. simpl.
    by apply outcome_downloadPhotos in Ho as [-> ->].
Qed.

Lemma session_selectionValid (acts : list Action) (v v' : View) :
  selectionValid (refs v) → outcome (session acts v) v' →
  selectionValid (refs v').
Proof.
  revert v. induction acts as [|a acts IH]; intros v Hinv; simpl.
  - by intros ->.
  - destruct (enabled a v) eqn:Hen; [|by apply IH].
    intros (v1 & Ho & Hrest)%outcome_bind.
    apply (IH v1); [|done]. by apply (perform_selectionValid a v).
Qed.

Lemma mount_selectionValid (t : string) (v : View) :
  outcome (mount t) v → selectionValid (refs v).
Proof.
  intros (st' & Ho & ->)%outcome_bind. unfold selectionValid. simpl.
  apply outcome_fetchShare in Ho as [-> | [_ ->]];
    by intros j ?%elem_of_nil.
Qed.

Lemma lastResolved_app (acc : list Photo) (tr1 tr2 : list Exchange) :
  lastResolved acc (tr1 ++ tr2) = lastResolved (lastResolved acc tr1) tr2.
Proof.
  revert acc. induction tr1 as [|ex tr1 IH]; intros acc; simpl; [done|].
  apply IH.
Qed.

Lemma run_downloadPhotos_lastResolved {Σ : Type}
    (handle : ∀ sh, Request → Σ → Result (payload sh) * Σ)
    (tok : string) (ids : list Z) (st : State) (σ : Σ) :
  let out := run handle (downloadPhotos tok ids st) σ in
  photos out.1.1 = lastResolved (photos st) out.2.
Proof.
  unfold downloadPhotos. destruct (bool_decide _); [done|].
  rewrite run_Await.
  by destruct (handle Blob _ σ) as [[d | e] σ1].
Qed.

Lemma run_perform_lastResolved {Σ : Type}
    (handle : ∀ sh, Request → Σ → Result (payload sh) * Σ)
    (a : Action) (v : View) (σ : Σ) :
  let out := run handle (perform a v) σ in
  photos (refs out.1.1) = lastResolved (photos (refs v)) out.2.
Proof.
  destruct a as [t | id | |]; unfold perform.
  - rewrite run_bind, run_fetchShare.
    destruct (handle ShareInfo _ σ) as [[d | e] σ1]; reflexivity.
  - simpl. unfold toggleSelection. by destruct (bool_decide _).
  - rewrite run_bind. unfold downloadSelected.
    destruct (bool_decide _); [done|].
    pose proof (run_downloadPhotos_lastResolved handle (token v)
                  (selectedIds (refs v)) (refs v) σ) as H.
    destruct (run handle (downloadPhotos _ _ _) σ) as [[st' σ'] tr].
    simpl in *. by rewrite (right_id_L [] (++)).
  - rewrite run_bind. unfold downloadAll.
    pose proof (run_downloadPhotos_lastResolved handle (token v) []
                  (refs v) σ) as H.
    destruct (run handle (downloadPhotos _ _ _) σ) as [[st' σ'] tr].
    simpl in *. by rewrite (right_id_L [] (++)).
Qed.

Lemma run_session_lastResolved {Σ : Type}
    (handle : ∀ sh, Request → Σ → Result (payload sh) * Σ)
    (acts : list Action) (v : View) (σ : Σ) :
  let out := run handle (session acts v) σ in
  photos (refs out.1.1) = lastResolved (photos (refs v)) out.2.
Proof.
  revert v σ. induction acts as [|a acts IH]; intros v σ; [done|].
  simpl session. destruct (enabled a v); [|apply IH].
  rewrite run_bind.
  pose proof (run_perform_lastResolved handle a v σ) as Hp.
  destruct (run handle (perform a v) σ) as [[v1 σ1] tr1].
  pose proof (IH v1 σ1) as Hs.
  destruct (run handle (session acts v1) σ1) as [[v2 σ2] tr2].
  simpl in *. by rewrite lastResolved_app, <- Hp.
Qed.

Lemma run_mount_session_lastResolved {Σ : Type}
    (handle : ∀ sh, Request → Σ → Result (payload sh) * Σ)
    (t : string) (acts : list Action) (σ : Σ) :
  let out := run handle (mount t ≫= session acts) σ in
  photos (refs out.1.1) = lastResolved [] out.2.
Proof.
  rewrite run_bind. unfold mount. rewrite run_bind, run_fetchShare.
  pose proof (run_session_lastResolved handle acts) as Hs.
  destruct (handle ShareInfo _ σ) as [[d | e] σ1]; cbn -[session];
    match goal with
    | |- context [run handle (session acts ?v) ?s] =>
        specialize (Hs v s); destruct (run handle (session acts v) s)
          as [[v2 σ2] tr2]
    end; simpl in *; by rewrite Hs.
Qed.

(** C8 (amended). After mounting the view and any actions the page
    offers, whatever the server answers, every selected id is the id of a
    photo of the list the view holds: [fetchShare] either empties the
    selection (when it loads a list) or leaves list and selection alone
    (when it fails), a click in the grid toggles the id of a photo of the
    list, and a download changes neither.  The list the view holds is the
    photo list of the last [GET /shares/{token}] that resolved (empty when
    none did).  Therefore every request of [downloadSelected] goes to the
    download endpoint of the current token and asks only for ids of photos
    of that list. *)
Theorem selection_within_photo_list {Σ : Type}
    (handle : ∀ sh, Request → Σ → Result (payload sh) * Σ)
    (t : string) (acts : list Action) (σ : Σ) :
  let out := run handle (mount t ≫= session acts) σ in
  let v := out.1.1 in
  selectionValid (refs v)
  ∧ photos (refs v) = lastResolved [] out.2
  ∧ (∀ token' st', outcome (fetchShare token' (refs v)) st' →
       selectedIds st' = []
       ∨ (photos st' = photos (refs v)
          ∧ selectedIds st' = selectedIds (refs v)))
  ∧ (∀ id, enabled (Toggle id) v = true → id ∈ displayedIds (refs v))
  ∧ (∀ r, issues (downloadSelected (token v) (refs v)) r →
       url r = "/shares/" +:+ token v +:+ "/download"
       ∧ ∃ ids, body r = Json {[ "photo_ids" := ids ]}
                ∧ ids ≠ [] ∧ ids ⊆ displayedIds (refs v)).
Proof.
  intros out v.
  assert (selectionValid (refs v)) as Hinv.
  { pose proof (run_outcome handle (mount t ≫= session acts) σ) as Ho.
    fold out v in Ho. apply outcome_bind in Ho as (v0 & Hm & Hs).
    apply (session_selectionValid acts v0); [|done].
    by apply (mount_selectionValid t). }
  split_and!.
  - done.
  - apply run_mount_session_lastResolved.
  - intros token' st'. apply (outcome_fetchShare token').
  - intros id Hen. simpl in Hen. apply andb_true_iff in Hen as [_ Hid].
    by apply bool_decide_eq_true in Hid.
  - intros r (_ & Hne & ->)%issues_downloadSelected.
    split; [done|]. by exists (selectedIds (refs v)).
Qed.

(** A share of photo 7, selected and downloaded. *)
Lemma selection_within_photo_list_witness :
  let v := (run oneShare (mount "a" ≫= session [Toggle 7]) ()).1.1 in
  let r := api_post "/shares/a/download" (Json {[ "photo_ids" := [7%Z] ]}) ∅
             (Some "blob") in
  issues (downloadSelected (token v) (refs v)) r
  ∧ ∃ ids, body r = Json {[ "photo_ids" := ids ]}
           ∧ ids ≠ [] ∧ ids ⊆ displayedIds (refs v).
Proof.
  intros v r.
  assert (issues (downloadSelected (token v) (refs v)) r) as H.
  { simpl. left. reflexivity. }
  split; [exact H|].
  exact (proj2 (proj2 (proj2 (proj2 (proj2
    (selection_within_photo_list oneShare "a" [Toggle 7] ())))) r H)).
Defined.

(** C8, as stated, fails when a later token does not resolve: photo 7 of
    the share [a] is selected, the route changes to the unknown token [b],
    and the selection is then downloaded.  The request goes to the download
    endpoint of [b] and asks for photo 7, which is not a photo of [b]; the
    page shows no photo at that moment. *)
Lemma stale_selection_counterexample :
  let acts := [Toggle 7; Navigate "b"] in
  let v := (run oneShare (mount "a" ≫= session acts) ()).1.1 in
  let r := api_post "/shares/b/download" (Json {[ "photo_ids" := [7%Z] ]}) ∅
             (Some "blob") in
  enabled DownloadSelected v = true
  ∧ issues (perform DownloadSelected v) r
  ∧ (oneShare ShareInfo (api_get "/shares/b" ∅) ()).1 = Rejected notFound
  ∧ galleryVisible (refs v) = false
  ∧ selectedIds (refs v) = [7%Z].
Proof.
  intros acts v r. split_and!; [reflexivity | | reflexivity..].
  simpl. left. reflexivity.
Qed.

End Selection.

(** ** Creating a share from the console *)
Section CreateShare.
Import Http AdminView Samples.

Lemma run_generateShare {Σ : Type}
    (handle : ∀ sh, Request → Σ → Result (payload sh) * Σ)
    (st : State) (σ : Σ) :
  selectedIds st ≠ [] →
  let req := api_post "/shares" (Json {[ "photo_ids" := selectedIds st ]})
               (Api.adminHeaders (adminPassword st)) None in
  run handle (generateShare st) σ =
    (match (handle ShareCreated req σ).1 with
     | Resolved d =>
         set_generating false
           (set_statusMessage "Lien de partage créé"
              (set_shareDetails (Some d) (set_generating true st)))
     | Rejected e =>
         set_generating false (handleError e (set_generating true st))
     end,
     (handle ShareCreated req σ).2,
     [Build_Exchange ShareCreated req (handle ShareCreated req σ).1]).
Proof.
  intros Hsel req. unfold generateShare, selectionCount.
  rewrite bool_decide_false by (by intros ?%nil_length_inv).
  subst req. simpl.
  destruct (handle ShareCreated _ σ) as [[d | e] σ1]; reflexivity.
Qed.

Lemma offered_Share (st : State) :
  offered Share st = true → isUnlocked st = true ∧ selectedIds st ≠ [].
Proof.
  simpl. intros [Hu Hs]%andb_true_iff. split; [done|].
  apply negb_true_iff, bool_decide_eq_false in Hs.
  intros Heq. apply Hs. unfold selectionCount. by rewrite Heq.
Qed.

(** C6. With a selection (the page disables the share button without
    one, and the handler returns at once), creating a share makes exactly one
    request: [POST /shares] with the JSON body [{photo_ids: selectedIds}]
    and the admin secret in the [X-Admin-Password] header.  When it
    resolves, the response is kept as the share details and the share card
    shows its [token], links its [share_url] (also the value of the QR
    code) and shows the length of its [photos]: the card reads these three
    fields and no other. *)
Theorem generateShare_request_and_card {Σ : Type}
    (handle : ∀ sh, Request → Σ → Result (payload sh) * Σ)
    (st : State) (σ : Σ) (Hsel : selectedIds st ≠ []) :
  let req := api_post "/shares" (Json {[ "photo_ids" := selectedIds st ]})
               (Api.adminHeaders (adminPassword st)) None in
  let out := run handle (generateShare st) σ in
  method req = POST ∧ url req = "/shares"
  ∧ body req = Json {[ "photo_ids" := selectedIds st ]}
  ∧ headers req = {[ "X-Admin-Password" := adminPassword st ]}
  ∧ ∃ res, out.2 = [Build_Exchange ShareCreated req res]
    ∧ match res with
      | Resolved d =>
          shareDetails out.1.1 = Some d
          ∧ shareCard out.1.1 =
              Some {| card_token := details_token d;
                      card_href := details_share_url d;
                      card_link_text := details_share_url d;
                      card_qr_value := details_share_url d;
                      card_photo_count := length (details_photos d) |}
          ∧ statusMessage out.1.1 = "Lien de partage créé"
          ∧ generating out.1.1 = false
      | Rejected e =>
          shareDetails out.1.1 = shareDetails st
          ∧ generating out.1.1 = false
      end.
Proof.
  intros req out.
  split_and!; [done..|]. subst out. rewrite run_generateShare by done.
  fold req. exists (handle ShareCreated req σ).1. split; [done|].
  destruct (handle ShareCreated req σ).1 as [d | e]; [done|]. simpl.
  split; [|done]. unfold handleError. by destruct (isForbidden e).
Qed.

(** The share button with photo 7 selected, against a server that accepts. *)
Lemma generateShare_witness :
  let st := set_selectedIds [7%Z] (initial (Some "admin")) in
  let req := api_post "/shares" (Json {[ "photo_ids" := [7%Z] ]})
               (Api.adminHeaders "admin") None in
  offered Share st = true
  ∧ ∃ res, (run accepting (generateShare st) ()).2
           = [Build_Exchange ShareCreated req res].
Proof.
  intros st req. split; [reflexivity|].
  destruct (generateShare_request_and_card accepting st ()
              ltac:(discriminate))
    as (_ & _ & _ & _ & res & Htr & _).
  exists res. exact Htr.
Defined.

End CreateShare.

(** ** Deleting photos from the console *)
Section DeletePhotos.
Import Http AdminView Samples.

Lemma offered_Delete (st : State) :
  offered Delete st = true → isUnlocked st = true ∧ selectedIds st ≠ [].
Proof.
  simpl. intros [[Hu Hs]%andb_true_iff _]%andb_true_iff. split; [done|].
  apply negb_true_iff, bool_decide_eq_false in Hs.
  intros Heq. apply Hs. unfold selectionCount. by rewrite Heq.
Qed.

(** C7. On an unlocked console with a selection (the page offers the
    delete button in no other state), deleting sends [DELETE /photos]
    with the admin secret in the [X-Admin-Password] header and the JSON body
    [{photo_ids: selectedIds}].  When that resolves, the share details are
    cleared, so no share card is shown, and the photo listing is fetched
    again with [GET /photos] (a listing that resolves replaces the photos
    and empties the selection); whatever the second answer, no share card
    is shown afterwards.  When the deletion is rejected nothing else is
    requested and the share details stay. *)
Theorem deleteSelected_clears_share_and_refetches {Σ : Type}
    (handle : ∀ sh, Request → Σ → Result (payload sh) * Σ)
    (st : State) (σ : Σ)
    (Hunl : isUnlocked st = true) (Hsel : selectedIds st ≠ []) :
  let del := api_delete "/photos" (Api.adminHeaders (adminPassword st))
               (Json {[ "photo_ids" := selectedIds st ]}) in
  let get := api_get "/photos" (Api.adminHeaders (adminPassword st)) in
  let out := run handle (deleteSelected st) σ in
  method del = DELETE ∧ url del = "/photos"
  ∧ headers del = {[ "X-Admin-Password" := adminPassword st ]}
  ∧ body del = Json {[ "photo_ids" := selectedIds st ]}
  ∧ let res := (handle Ignored del σ).1 in
    head out.2 = Some (Build_Exchange Ignored del res)
    ∧ match res with
      | Resolved _ =>
          let res2 := (handle PhotoList get (handle Ignored del σ).2).1 in
          out.2 = [Build_Exchange Ignored del res;
                   Build_Exchange PhotoList get res2]
          ∧ shareDetails out.1.1 = None
          ∧ shareCard out.1.1 = None
          ∧ deleting out.1.1 = false
          ∧ match res2 with
            | Resolved d => photos out.1.1 = d ∧ selectedIds out.1.1 = []
            | Rejected _ => photos out.1.1 = photos st
            end
      | Rejected e =>
          out.2 = [Build_Exchange Ignored del res]
          ∧ shareDetails out.1.1 = shareDetails st
          ∧ deleting out.1.1 = false
      end.
Proof.
  intros del get out.
  split_and!; [done..|]. subst out. unfold deleteSelected, selectionCount.
  rewrite bool_decide_false by (by intros ?%nil_length_inv).
  rewrite run_Await. simpl. fold del.
  destruct (handle Ignored del σ) as [[u | e] σ1].
  - rewrite run_bind. unfold fetchPhotos, isUnlocked in *. simpl.
    rewrite Hunl. simpl. fold get.
    destruct (handle PhotoList get σ1) as [[d | e] σ2]; simpl.
    + done.
    + split_and!; try done; unfold handleError, shareCard;
        by destruct (isForbidden e).
  - simpl. split; [done|]. split; [done|].
    unfold handleError. by destruct (isForbidden e).
Qed.

(** The delete button with photo 7 selected, against a server that
    accepts. *)
Lemma deleteSelected_witness :
  let st := set_shareDetails
              (Some {| details_token := "tok";
                       details_share_url := "https://front.example/share/tok";
                       details_photos := [photo7];
                       details_rest := ∅ |})
              (set_selectedIds [7%Z] (set_photos [photo7]
                                        (initial (Some "admin")))) in
  offered Delete st = true
  ∧ shareCard (run accepting (deleteSelected st) ()).1.1 = None.
Proof.
  intros st. split; [reflexivity|].
  destruct (deleteSelected_clears_share_and_refetches accepting st ()
              eq_refl ltac:(discriminate))
    as (_ & _ & _ & _ & _ & _ & _ & Hcard & _).
  exact Hcard.
Defined.

End DeletePhotos.

(** ** Share creation is all or nothing *)
Section Atomic.
Import Http Backend.


(** A creation that fails leaves the store as it was, whatever it failed
    for. *)
Lemma create_failed_unchanged (cfg : Config) (presented : option string)
    (now : string) (draws : list string) (ids : list Z) (st st' : Store)
    (e : Error) :
  create cfg presented now draws ids st = (inl e, st') → st' = st.
Proof.
  unfold create.
  destruct (negb (authorized cfg presented)); [by intros [= _ <-]|].
  case_bool_decide; [by intros [= _ <-]|].
  destruct (negb (forallb _ ids)); [by intros [= _ <-]|].
  destruct (freshToken draws st); [done | by intros [= _ <-]].
Qed.



End Atomic.

(** ** What every run of the console keeps *)
Section ConsoleRuns.
Import Http AdminView Console.

Lemma toggled_NoDup (id : Z) (ids : list Z) :
  NoDup ids → NoDup (toggled id ids).
Proof.
  intros Hnd. unfold toggled. case_bool_decide as Hin.
  - by apply NoDup_filter.
  - apply NoDup_app. split_and!; [done | | apply NoDup_singleton].
    intros j Hj ->%list_elem_of_singleton. done.
Qed.

Lemma toggled_length (id : Z) (ids : list Z) :
  NoDup ids →
  length (toggled id ids) =
    if bool_decide (id ∈ ids) then length ids - 1 else length ids + 1.
Proof.
  intros Hnd. unfold toggled. case_bool_decide as Hin.
  - induction Hnd as [|x l Hx Hnd IH]; [by apply elem_of_nil in Hin|].
    rewrite filter_cons. case_decide as Hne.
    + apply elem_of_cons in Hin as [-> | Hin]; [done|].
      simpl. rewrite IH by done. destruct l; [by apply elem_of_nil in Hin|].
      simpl. lia.
    + subst x. simpl. rewrite Nat.sub_0_r.
      clear IH Hin Hnd. induction l as [|y l IH]; [done|].
      rewrite filter_cons. rewrite decide_True.
      * simpl. f_equal. apply IH. by intros ?; apply Hx; right.
      * intros ->. apply Hx. by left.
  - by rewrite length_app.
Qed.

(** What [fetchPhotos] can leave, whatever the answer. *)
Lemma outcome_fetchPhotos_cases (st st' : State) :
  outcome (fetchPhotos st) st' →
  st' = st
  ∨ (∃ d, st' = set_errorMessage ""
                  (set_statusMessage
                     ("Chargé (" +:+ pretty (length d) +:+ " photos)")
                     (set_selectedIds [] (set_photos d st))))
  ∨ (∃ e, st' = handleError e st).
Proof.
  unfold fetchPhotos. destruct (isUnlocked st); simpl; [|by left].
  intros [[d | e] ->]; [right; left; by exists d | right; right; by exists e].
Qed.

Lemma handleError_fields (e : AxiosError) (st : State) :
  ((adminPassword (handleError e st) = adminPassword st
    ∧ sessionItem (handleError e st) = sessionItem st)
   ∨ (adminPassword (handleError e st) = ""
      ∧ sessionItem (handleError e st) = None))
  ∧ photos (handleError e st) = photos st
  ∧ selectedIds (handleError e st) = selectedIds st
  ∧ statusMessage (handleError e st) = statusMessage st
  ∧ shareDetails (handleError e st) = shareDetails st
  ∧ uploading (handleError e st) = uploading st
  ∧ deleting (handleError e st) = deleting st
  ∧ generating (handleError e st) = generating st.
Proof.
  unfold handleError. destruct (isForbidden e); simpl;
    (split; [auto | done]).
Qed.

(** [fetchPhotos] keeps the secret persisted and the selection valid, and
    touches neither the busy flags nor the share details. *)
Lemma fetchPhotos_keeps (st st' : State) :
  outcome (fetchPhotos st) st' →
  secretPersisted st → selectionValid st →
  secretPersisted st' ∧ selectionValid st'
  ∧ uploading st' = uploading st ∧ deleting st' = deleting st
  ∧ generating st' = generating st ∧ shareDetails st' = shareDetails st.
Proof.
  intros [-> | [[d ->] | [e ->]]]%outcome_fetchPhotos_cases Hsec [Hsub Hnd].
  - done.
  - unfold secretPersisted, selectionValid in *. simpl.
    split_and!; try done; [by intros j ?%elem_of_nil | apply NoDup_nil_2].
  - destruct (handleError_fields e st)
      as (Hps & Hph & Hids & _ & Hsd & Hu & Hd & Hg).
    unfold secretPersisted, selectionValid in *.
    rewrite Hph, Hids, Hsd, Hu, Hd, Hg. split_and!; try done.
    destruct Hps as [[-> ->] | [-> ->]]; done.
Qed.

Lemma perform_steady (trim : string → string) (a : Action) (st st' : State) :
  offered a st = true → steady st →
  outcome (perform trim a st) st' → steady st'.
Proof.
  intros Hoff (Hsec & (Hu & Hd & Hg) & Hsub & Hnd).
  destruct a as [| | files | id | | |]; unfold perform.
  - unfold unlock. case_decide as Hblank; [by intros ->|].
    intros Ho. apply fetchPhotos_keeps in Ho as (? & ? & Hu' & Hd' & Hg' & _).
    + unfold steady, idle. rewrite Hu', Hd', Hg'.
      unfold persistPassword. by destruct (isUnlocked _).
    + unfold secretPersisted, persistPassword, isUnlocked. simpl.
      by rewrite bool_decide_true.
    + unfold persistPassword. by destruct (isUnlocked _).
  - intros Ho. apply fetchPhotos_keeps in Ho as (? & ? & Hu' & Hd' & Hg' & _);
      [|done..]. unfold steady, idle. by rewrite Hu', Hd', Hg'.
  - unfold handleUpload. destruct (_ || _); [by intros ->|].
    simpl. intros [[u | e] Ho].
    + apply outcome_bind in Ho as (st2 & Ho & ->).
      apply fetchPhotos_keeps in Ho as (? & ? & _ & Hd' & Hg' & _);
        [|done..]. simpl in *. by rewrite <- Hd', <- Hg' in *.
    + simpl in Ho. subst st'.
      destruct (handleError_fields e (set_uploading true st))
        as (Hps & Hph & Hids & _ & _ & _ & Hd' & Hg').
      unfold steady, secretPersisted, idle, selectionValid in *. simpl in *.
      rewrite Hph, Hids, Hd', Hg'. split_and!; try done.
      destruct Hps as [[-> ->] | [-> ->]]; done.
  - simpl. intros ->. unfold steady, secretPersisted, idle, selectionValid.
    rewrite admin_toggle_selectedIds.
    assert (photos (toggleSelection id st) = photos st
            ∧ adminPassword (toggleSelection id st) = adminPassword st
            ∧ sessionItem (toggleSelection id st) = sessionItem st
            ∧ uploading (toggleSelection id st) = uploading st
            ∧ deleting (toggleSelection id st) = deleting st
            ∧ generating (toggleSelection id st) = generating st)
      as (-> & -> & -> & -> & -> & ->).
    { unfold toggleSelection. by destruct (bool_decide _). }
    split_and!; try done.
    + apply toggled_subseteq; [|done]. simpl in Hoff.
      apply andb_true_iff in Hoff as [_ Hid].
      by apply bool_decide_eq_true in Hid.
    + by apply toggled_NoDup.
  - unfold deleteSelected. destruct (bool_decide _); [by intros ->|].
    simpl. intros [[u | e] Ho].
    + apply outcome_bind in Ho as (st2 & Ho & ->).
      apply fetchPhotos_keeps in Ho as (? & ? & Hu' & _ & Hg' & _);
        [|done..]. simpl in *. by rewrite <- Hu', <- Hg' in *.
    + simpl in Ho. subst st'.
      destruct (handleError_fields e (set_deleting true st))
        as (Hps & Hph & Hids & _ & _ & Hu' & _ & Hg').
      unfold steady, secretPersisted, idle, selectionValid in *. simpl in *.
      rewrite Hph, Hids, Hu', Hg'. split_and!; try done.
      destruct Hps as [[-> ->] | [-> ->]]; done.
  - unfold generateShare. destruct (bool_decide _); [by intros ->|].
    simpl. intros [[d | e] ->]; [done|].
    destruct (handleError_fields e (set_generating true st))
      as (Hps & Hph & Hids & _ & _ & Hu' & Hd' & _).
    unfold steady, secretPersisted, idle, selectionValid in *. simpl in *.
    rewrite Hph, Hids, Hu', Hd'. split_and!; try done.
    destruct Hps as [[-> ->] | [-> ->]]; done.
  - unfold mounted. destruct (isUnlocked st); [|by intros ->].
    intros Ho. apply fetchPhotos_keeps in Ho as (? & ? & Hu' & Hd' & Hg' & _);
      [|done..]. unfold steady, idle. by rewrite Hu', Hd', Hg'.
Qed.

Lemma session_steady (trim : string → string) (acts : list Action)
    (st st' : State) :
  steady st → outcome (session trim acts st) st' → steady st'.
Proof.
  revert st. induction acts as [|a acts IH]; intros st Hst; simpl.
  - by intros ->.
  - destruct (offered a st) eqn:Hoff; [|by apply IH].
    intros (st1 & Ho & Hrest)%outcome_bind.
    apply (IH st1); [|done]. by apply (perform_steady trim a st).
Qed.

Lemma initial_steady (stored : option string) : steady (initial stored).
Proof.
  unfold steady, secretPersisted, idle, selectionValid. simpl.
  split_and!; try done; apply NoDup_nil_2.
Qed.

End ConsoleRuns.

Section ConsoleInvariants.
Import Http AdminView Console Samples.

Lemma json_ids_inv (a b : list Z) :
  Json {[ "photo_ids" := a ]} = Json {[ "photo_ids" := b ]} → a = b.
Proof.
  intros H.
  assert (({[ "photo_ids" := a ]} : gmap string (list Z))
          = {[ "photo_ids" := b ]}) as Hm by congruence.
  apply (f_equal (λ m : gmap string (list Z), m !! "photo_ids")) in Hm.
  rewrite !lookup_singleton_eq in Hm. congruence.
Qed.

Lemma run_session_steady {Σ : Type}
    (handle : ∀ sh, Request → Σ → Result (payload sh) * Σ)
    (stored : option string) (trim : string → string) (acts : list Action)
    (σ : Σ) :
  steady (run handle (session trim acts (initial stored)) σ).1.1.
Proof.
  apply (session_steady trim acts (initial stored)); [apply initial_steady|].
  apply run_outcome.
Qed.

(** X1. Whatever the operator does and the server answers, the secret the
    console holds in memory is the one a reload of the page would read back
    from [sessionStorage]: an unlocked console has its secret stored, and a
    locked console has no secret left in storage. *)
Theorem console_secret_survives_reload {Σ : Type}
    (handle : ∀ sh, Request → Σ → Result (payload sh) * Σ)
    (stored : option string) (trim : string → string) (acts : list Action)
    (σ : Σ) :
  let st := (run handle (session trim acts (initial stored)) σ).1.1 in
  adminPassword (initial (sessionItem st)) = adminPassword st
  ∧ (sessionItem st = Some (adminPassword st) ∨ isUnlocked st = false).
Proof.
  intros st.
  destruct (run_session_steady handle stored trim acts σ) as (Hsec & _ & _).
  fold st in Hsec. unfold secretPersisted in Hsec. split; [by rewrite Hsec|].
  unfold isUnlocked. destruct (sessionItem st) as [s|]; simpl in Hsec.
  - left. by rewrite Hsec.
  - right. rewrite Hsec. by apply bool_decide_eq_false; intros ?.
Qed.

(** X2. Once an operation has settled, none of the busy flags
    ([uploading], [deleting], [generating]) is left raised, whether its
    requests resolved or were rejected: the [finally] blocks lower them on
    every path. *)
Theorem console_flags_lowered {Σ : Type}
    (handle : ∀ sh, Request → Σ → Result (payload sh) * Σ)
    (stored : option string) (trim : string → string) (acts : list Action)
    (σ : Σ) :
  let st := (run handle (session trim acts (initial stored)) σ).1.1 in
  uploading st = false ∧ deleting st = false ∧ generating st = false.
Proof.
  intros st.
  by destruct (run_session_steady handle stored trim acts σ) as (_ & ? & _).
Qed.

(** X3. In every state the console reaches, the selection holds only ids
    of photos of the listing it holds, each id once; so the ids a delete or
    share request carries are ids of listed photos, without repetition. *)
Theorem console_selection_within_listing {Σ : Type}
    (handle : ∀ sh, Request → Σ → Result (payload sh) * Σ)
    (stored : option string) (trim : string → string) (acts : list Action)
    (σ : Σ) :
  let st := (run handle (session trim acts (initial stored)) σ).1.1 in
  selectedIds st ⊆ photo_id <$> photos st
  ∧ NoDup (selectedIds st)
  ∧ ∀ r ids,
      issues (deleteSelected st) r ∨ issues (generateShare st) r →
      body r = Json {[ "photo_ids" := ids ]} →
      ids ⊆ photo_id <$> photos st ∧ NoDup ids.
Proof.
  intros st.
  destruct (run_session_steady handle stored trim acts σ)
    as (_ & _ & Hsub & Hnd).
  fold st in Hsub, Hnd. split_and!; [done..|].
  intros r ids [[-> | ->]%issues_deleteSelected | ->%issues_generateShare];
    unfold api_delete, api_get, api_post; cbn [body]; intros Hb;
    [|discriminate|]; by apply json_ids_inv in Hb as <-.
Qed.

(** The console unlocked from storage, the listing fetched, photo 7
    selected: the share request carries [7]. *)
Lemma console_selection_witness :
  let st := (run accepting
               (session (λ s, s) [Mounted; Toggle 7] (initial (Some "admin")))
               ()).1.1 in
  let r := api_post "/shares" (Json {[ "photo_ids" := [7%Z] ]})
             (Api.adminHeaders "admin") None in
  issues (generateShare st) r
  ∧ [7%Z] ⊆ photo_id <$> photos st ∧ NoDup [7%Z].
Proof.
  intros st r.
  assert (issues (generateShare st) r) as H by (simpl; left; reflexivity).
  split; [exact H|].
  exact (proj2 (proj2 (console_selection_within_listing accepting
                         (Some "admin") (λ s, s) [Mounted; Toggle 7] ()))
           r [7%Z] (or_intror H) eq_refl).
Defined.

End ConsoleInvariants.

Section SelectionCount.

(** X4. In a selection without repetition, one [toggleSelection] moves the
    selection count by exactly one (down when the id was selected, up when
    it was not) and leaves the selection without repetition, in the console
    and in the share view alike. *)
Theorem selection_count_moves_by_one (id : Z)
    (adm : AdminView.State) (shr : ShareView.State)
    (Hadm : NoDup (AdminView.selectedIds adm))
    (Hshr : NoDup (ShareView.selectedIds shr)) :
  AdminView.selectionCount (AdminView.toggleSelection id adm) =
    (if bool_decide (id ∈ AdminView.selectedIds adm)
     then AdminView.selectionCount adm - 1
     else AdminView.selectionCount adm + 1)
  ∧ NoDup (AdminView.selectedIds (AdminView.toggleSelection id adm))
  ∧ length (ShareView.selectedIds (ShareView.toggleSelection id shr)) =
      (if bool_decide (id ∈ ShareView.selectedIds shr)
       then length (ShareView.selectedIds shr) - 1
       else length (ShareView.selectedIds shr) + 1)
  ∧ NoDup (ShareView.selectedIds (ShareView.toggleSelection id shr)).
Proof.
  unfold AdminView.selectionCount.
  rewrite admin_toggle_selectedIds, share_toggle_selectedIds.
  split_and!; by (apply toggled_length || apply toggled_NoDup).
Qed.

(** Photo 2 toggled in the selection [1; 2; 3]. *)
Lemma selection_count_witness :
  AdminView.selectionCount
    (AdminView.toggleSelection 2
       (AdminView.set_selectedIds [1; 2; 3]%Z (AdminView.initial None))) = 2.
Proof.
  exact (proj1 (selection_count_moves_by_one 2
                  (AdminView.set_selectedIds [1; 2; 3]%Z
                     (AdminView.initial None))
                  (ShareView.set_selectedIds [1; 2; 3]%Z ShareView.initial)
                  ltac:(compute_done) ltac:(compute_done))).
Defined.

End SelectionCount.

(** ** Guards of the handlers *)
Section Guards.
Import Http Samples.

Lemma offered_unlocked (a : AdminView.Action) (st : AdminView.State) :
  AdminView.offered a st = true →
  a ≠ AdminView.Unlock → a ≠ AdminView.Mounted →
  AdminView.isUnlocked st = true.
Proof.
  destruct a; simpl; intros H ? ?; try done;
    repeat (apply andb_true_iff in H as [H _]); done.
Qed.

(** X5. No request of an operation the page offers carries an empty
    secret: the unlock button refuses an input that trims to nothing, the
    listing, upload and mount paths return early on a locked console, and
    the delete and share buttons exist on an unlocked console only. *)
Theorem console_never_sends_empty_secret (trim : string → string)
    (a : AdminView.Action) (st : AdminView.State) (r : Request)
    (Hoffered : AdminView.offered a st = true)
    (Hissued : issues (AdminView.perform trim a st) r) :
  ∃ password, headers r !! "X-Admin-Password" = Some password
              ∧ password ≠ "".
Proof.
  assert (AdminView.isUnlocked st = true → AdminView.adminPassword st ≠ "")
    as Hpw by (unfold AdminView.isUnlocked; by intros ?%bool_decide_eq_true).
  destruct a as [| | files | id | | |]; unfold AdminView.perform in Hissued.
  - assert (trim (AdminView.passwordInput st) ≠ "") as Hblank.
    { unfold AdminView.unlock in Hissued. by case_decide. }
    apply issues_unlock in Hissued as ->.
    exists (trim (AdminView.passwordInput st)). by split.
  - apply issues_fetchPhotos in Hissued as [-> Hunl]. eauto.
  - pose proof (offered_unlocked _ _ Hoffered) as Hunl.
    apply issues_handleUpload in Hissued as [-> | ->];
      (eexists; split; [done|]; by apply Hpw, Hunl).
  - done.
  - pose proof (offered_unlocked _ _ Hoffered) as Hunl.
    apply issues_deleteSelected in Hissued as [-> | ->];
      (eexists; split; [done|]; by apply Hpw, Hunl).
  - pose proof (offered_unlocked _ _ Hoffered) as Hunl.
    apply issues_generateShare in Hissued as ->.
    eexists. split; [done|]. by apply Hpw, Hunl.
  - unfold AdminView.mounted in Hissued.
    destruct (AdminView.isUnlocked st) eqn:Hunl; [|done].
    apply issues_fetchPhotos in Hissued as [-> _]. eauto.
Qed.

(** The delete button of an unlocked console with photo 7 selected. *)
Lemma console_never_sends_empty_secret_witness :
  let st := AdminView.set_selectedIds [7%Z] (AdminView.initial (Some "admin")) in
  let r := api_delete "/photos" (Api.adminHeaders "admin")
             (Json {[ "photo_ids" := [7%Z] ]}) in
  AdminView.offered AdminView.Delete st = true
  ∧ issues (AdminView.perform (λ s, s) AdminView.Delete st) r
  ∧ ∃ password, headers r !! "X-Admin-Password" = Some password
                ∧ password ≠ "".
Proof.
  intros st r.
  assert (issues (AdminView.perform (λ s, s) AdminView.Delete st) r) as H
    by (simpl; left; reflexivity).
  split; [reflexivity|]. split; [exact H|].
  exact (console_never_sends_empty_secret (λ s, s) AdminView.Delete st r
           eq_refl H).
Defined.

(** X6. Each handler makes a request exactly when its own guard passes:
    the listing on an unlocked console, the upload with at least one file on
    an unlocked console, the unlock with an input that does not trim to
    nothing, the deletion and the share creation with a selection (they do
    not look at the lock themselves), the download of the selection with
    photos and a selection, the download of everything with photos.  A
    handler whose guard fails leaves the refs as they are, except the unlock,
    which only sets its error message. *)
Theorem handlers_request_iff_guard :
  (∀ st, (∃ r, issues (AdminView.fetchPhotos st) r)
         ↔ AdminView.isUnlocked st = true)
  ∧ (∀ files st, (∃ r, issues (AdminView.handleUpload files st) r)
                 ↔ files ≠ [] ∧ AdminView.isUnlocked st = true)
  ∧ (∀ trim st, (∃ r, issues (AdminView.unlock trim st) r)
                ↔ trim (AdminView.passwordInput st) ≠ "")
  ∧ (∀ st, (∃ r, issues (AdminView.deleteSelected st) r)
           ↔ AdminView.selectedIds st ≠ [])
  ∧ (∀ st, (∃ r, issues (AdminView.generateShare st) r)
           ↔ AdminView.selectedIds st ≠ [])
  ∧ (∀ token st, (∃ r, issues (ShareView.downloadSelected token st) r)
                 ↔ ShareView.photos st ≠ [] ∧ ShareView.selectedIds st ≠ [])
  ∧ (∀ token st, (∃ r, issues (ShareView.downloadAll token st) r)
                 ↔ ShareView.photos st ≠ [])
  ∧ (∀ files st st',
       (outcome (AdminView.fetchPhotos st) st'
        ∧ AdminView.isUnlocked st = false)
       ∨ (outcome (AdminView.handleUpload files st) st'
          ∧ (files = [] ∨ AdminView.isUnlocked st = false))
       ∨ (outcome (AdminView.deleteSelected st) st'
          ∧ AdminView.selectedIds st = [])
       ∨ (outcome (AdminView.generateShare st) st'
          ∧ AdminView.selectedIds st = []) →
       st' = st)
  ∧ (∀ trim st st',
       outcome (AdminView.unlock trim st) st' →
       trim (AdminView.passwordInput st) = "" →
       st' = AdminView.set_errorMessage
               "Merci de saisir le mot de passe admin." st)
  ∧ (∀ token st st',
       (outcome (ShareView.downloadSelected token st) st'
        ∧ (ShareView.photos st = [] ∨ ShareView.selectedIds st = []))
       ∨ (outcome (ShareView.downloadAll token st) st'
          ∧ ShareView.photos st = []) →
       st' = st).
Proof.
  split_and!.
  - intros st. unfold AdminView.fetchPhotos.
    destruct (AdminView.isUnlocked st); simpl.
    + split; [done|]. intros _. eexists. by left.
    + split; [by intros [r []] | done].
  - intros files st. unfold AdminView.handleUpload.
    destruct files as [|f files]; simpl.
    + split; [by intros [r []] | by intros [[] _]].
    + destruct (AdminView.isUnlocked st); simpl.
      * split; [done|]. intros _. eexists. by left.
      * split; [by intros [r []] | by intros [_ ?]].
  - intros trim st. unfold AdminView.unlock. case_decide as Hblank.
    + split; [by intros [r []] | done].
    + split; [done|]. intros _. unfold AdminView.fetchPhotos.
      assert (AdminView.isUnlocked
                (AdminView.persistPassword
                   (AdminView.set_adminPassword
                      (trim (AdminView.passwordInput st)) st)) = true) as ->.
      { unfold AdminView.persistPassword, AdminView.isUnlocked. simpl.
        rewrite (bool_decide_true (trim (AdminView.passwordInput st) ≠ ""))
          by done.
        simpl. by apply bool_decide_eq_true. }
      eexists. simpl. by left.
  - intros st. unfold AdminView.deleteSelected, AdminView.selectionCount.
    destruct (AdminView.selectedIds st); simpl.
    + split; [by intros [r []] | done].
    + split; [done|]. intros _. eexists. by left.
  - intros st. unfold AdminView.generateShare, AdminView.selectionCount.
    destruct (AdminView.selectedIds st); simpl.
    + split; [by intros [r []] | done].
    + split; [done|]. intros _. eexists. by left.
  - intros token st. split.
    + by intros [r (? & ? & _)%issues_downloadSelected].
    + intros [Hp Hs]. unfold ShareView.downloadSelected.
      rewrite bool_decide_false by (by intros ?%nil_length_inv).
      eexists. by apply downloadPhotos_issues.
  - intros token st. split.
    + by intros [r [? _]%issues_downloadAll].
    + intros Hp. eexists. by apply downloadPhotos_issues.
  - intros files st st' [[Ho Hg] | [[Ho Hg] | [[Ho Hg] | [Ho Hg]]]].
    + unfold AdminView.fetchPhotos in Ho. by rewrite Hg in Ho.
    + unfold AdminView.handleUpload in Ho.
      destruct Hg as [-> | Hg]; [done|]. rewrite Hg in Ho.
      by rewrite orb_true_r in Ho.
    + unfold AdminView.deleteSelected, AdminView.selectionCount in Ho.
      by rewrite Hg in Ho.
    + unfold AdminView.generateShare, AdminView.selectionCount in Ho.
      by rewrite Hg in Ho.
  - intros trim st st' Ho Hblank. unfold AdminView.unlock in Ho.
    by rewrite decide_True in Ho.
  - intros token st st' [[Ho Hg] | [Ho Hg]].
    + unfold ShareView.downloadSelected, ShareView.downloadPhotos in Ho.
      destruct Hg as [Hg | Hg]; rewrite Hg in Ho; simpl in Ho; [|done].
      by destruct (bool_decide _).
    + unfold ShareView.downloadAll, ShareView.downloadPhotos in Ho.
      by rewrite Hg in Ho.
Qed.

End Guards.

(** ** What the console shows after an operation *)
Section ConsoleOutcome.
Import Http AdminView Samples.

(** X7. On an unlocked console, after an upload of at least one file
    (whatever the selection) or a deletion of a selection that resolves, the
    listing is fetched again.  When that listing resolves too, the console
    shows the new listing with an empty selection, no error and the status
    ['Chargé (n photos)']: the operation's own status (['n photo(s)
    importées'], ['Photos supprimées']) is replaced at once.  The
    operation's own status is what remains only when the listing is
    rejected, and then the earlier photos and selection stay too. *)
Theorem listing_status_replaces_operation_status {Σ : Type}
    (handle : ∀ sh, Request → Σ → Result (payload sh) * Σ)
    (files : list File) (st : State) (σ : Σ)
    (Hunl : isUnlocked st = true) :
  let post := api_post "/images/add"
                (Multipart ((λ f, ("photos", f)) <$> files))
                (<["Content-Type" := "multipart/form-data"]>
                   (Api.adminHeaders (adminPassword st))) None in
  let del := api_delete "/photos" (Api.adminHeaders (adminPassword st))
               (Json {[ "photo_ids" := selectedIds st ]}) in
  let get := api_get "/photos" (Api.adminHeaders (adminPassword st)) in
  let after op own (out : State) :=
    match (handle Ignored op σ).1 with
    | Resolved _ =>
        match (handle PhotoList get (handle Ignored op σ).2).1 with
        | Resolved d =>
            statusMessage out = "Chargé (" +:+ pretty (length d) +:+ " photos)"
            ∧ photos out = d ∧ selectedIds out = []
            ∧ errorBanner out = None
        | Rejected e =>
            statusMessage out = own
            ∧ photos out = photos st ∧ selectedIds out = selectedIds st
        end
    | Rejected e =>
        statusMessage out = statusMessage st
        ∧ photos out = photos st ∧ selectedIds out = selectedIds st
    end in
  (files ≠ [] →
   after post (pretty (length files) +:+ " photo(s) importées")
     (run handle (handleUpload files st) σ).1.1)
  ∧ (selectedIds st ≠ [] →
     after del "Photos supprimées" (run handle (deleteSelected st) σ).1.1).
Proof.
  intros post del get after. subst after. cbv beta. split.
  - intros Hfiles. unfold handleUpload. rewrite Hunl.
    rewrite bool_decide_false by done. cbn [orb negb]. rewrite run_Await.
    cbn [adminPassword set_uploading]. fold post.
    destruct (handle Ignored post σ) as [[u | e] σ1]; cbn [fst snd].
    + rewrite run_bind. unfold fetchPhotos, isUnlocked in *. simpl.
      rewrite Hunl. simpl. fold get.
      destruct (handle PhotoList get σ1) as [[d | e] σ2]; simpl; [done|].
      destruct (handleError_fields e
                  (set_statusMessage
                     (pretty (length files) +:+ " photo(s) importées")
                     (set_uploading true st)))
        as (_ & Hph & Hids & Hst & _). by rewrite Hph, Hids, Hst.
    + simpl.
      destruct (handleError_fields e (set_uploading true st))
        as (_ & Hph & Hids & Hst & _). by rewrite Hph, Hids, Hst.
  - intros Hsel. unfold deleteSelected, selectionCount.
    rewrite bool_decide_false by (by intros ?%nil_length_inv).
    rewrite run_Await. cbn [adminPassword selectedIds set_deleting]. fold del.
    destruct (handle Ignored del σ) as [[u | e] σ1]; cbn [fst snd].
    + rewrite run_bind. unfold fetchPhotos, isUnlocked in *. simpl.
      rewrite Hunl. simpl. fold get.
      destruct (handle PhotoList get σ1) as [[d | e] σ2]; simpl; [done|].
      destruct (handleError_fields e
                  (set_shareDetails None
                     (set_statusMessage "Photos supprimées"
                        (set_deleting true st))))
        as (_ & Hph & Hids & Hst & _). by rewrite Hph, Hids, Hst.
    + simpl.
      destruct (handleError_fields e (set_deleting true st))
        as (_ & Hph & Hids & Hst & _). by rewrite Hph, Hids, Hst.
Qed.

(** One file uploaded from a console with nothing selected. *)
Lemma listing_status_witness :
  let st := initial (Some "admin") in
  let file := {| file_name := "b.jpg"; file_bytes := "JFIF" |} in
  statusMessage (run accepting (handleUpload [file] st) ()).1.1
  = "Chargé (1 photos)".
Proof.
  intros st file.
  exact (proj1 (proj1 (listing_status_replaces_operation_status accepting
                         [file] st () eq_refl) ltac:(discriminate))).
Defined.

(** Over every way an operation can end, the share details are kept, set
    by a share creation, or cleared by a deletion. *)
Lemma outcome_perform_shareDetails (trim : string → string) (a : Action)
    (st st' : State) :
  outcome (perform trim a st) st' →
  shareDetails st' = shareDetails st
  ∨ (a = Share ∧ ∃ d, shareDetails st' = Some d)
  ∨ (a = Delete ∧ shareDetails st' = None).
Proof.
  intros Hout.
  destruct a as [| | files | id | | |]; unfold perform in Hout.
  - left. unfold unlock in Hout. case_decide; [by simpl in Hout; subst st'|].
    apply outcome_fetchPhotos_cases in Hout as [-> | [[d ->] | [e ->]]];
      unfold persistPassword; try (by destruct (isUnlocked _)).
    destruct (handleError_fields e
      (if isUnlocked (set_adminPassword (trim (passwordInput st)) st)
       then set_sessionItem
              (Some (adminPassword
                       (set_adminPassword (trim (passwordInput st)) st)))
              (set_adminPassword (trim (passwordInput st)) st)
       else set_adminPassword (trim (passwordInput st)) st))
      as (_ & _ & _ & _ & -> & _). by destruct (isUnlocked _).
  - left.
    apply outcome_fetchPhotos_cases in Hout as [-> | [[d ->] | [e ->]]];
      try done.
    by destruct (handleError_fields e st) as (_ & _ & _ & _ & -> & _).
  - left. unfold handleUpload in Hout.
    destruct (_ || _); [by simpl in Hout; subst st'|]. simpl in Hout.
    destruct Hout as [[u | e] Ho].
    + apply outcome_bind in Ho as (st2 & Ho & ->). simpl.
      apply outcome_fetchPhotos_cases in Ho as [-> | [[d ->] | [e ->]]];
        try done.
      by destruct (handleError_fields e
                     (set_statusMessage
                        (pretty (length files) +:+ " photo(s) importées")
                        (set_uploading true st)))
        as (_ & _ & _ & _ & -> & _).
    + simpl in Ho. subst st'. simpl.
      by destruct (handleError_fields e (set_uploading true st))
        as (_ & _ & _ & _ & -> & _).
  - left. simpl in Hout. subst st'. unfold toggleSelection.
    by destruct (bool_decide _).
  - unfold deleteSelected in Hout.
    destruct (bool_decide _); [left; by simpl in Hout; subst st'|].
    simpl in Hout. destruct Hout as [[u | e] Ho].
    + right. right. split; [done|].
      apply outcome_bind in Ho as (st2 & Ho & ->). simpl.
      apply outcome_fetchPhotos_cases in Ho as [-> | [[d ->] | [e ->]]];
        try done.
      by destruct (handleError_fields e
                     (set_shareDetails None
                        (set_statusMessage "Photos supprimées"
                           (set_deleting true st))))
        as (_ & _ & _ & _ & -> & _).
    + left. simpl in Ho. subst st'. simpl.
      by destruct (handleError_fields e (set_deleting true st))
        as (_ & _ & _ & _ & -> & _).
  - unfold generateShare in Hout.
    destruct (bool_decide _); [left; by simpl in Hout; subst st'|].
    simpl in Hout. destruct Hout as [[d | e] Ho]; simpl in Ho; subst st'.
    + right. left. split; [done|]. exists d. reflexivity.
    + left. simpl.
      by destruct (handleError_fields e (set_generating true st))
        as (_ & _ & _ & _ & -> & _).
  - left. unfold mounted in Hout.
    destruct (isUnlocked st); [|by simpl in Hout; subst st'].
    apply outcome_fetchPhotos_cases in Hout as [-> | [[d ->] | [e ->]]];
      try done.
    by destruct (handleError_fields e st) as (_ & _ & _ & _ & -> & _).
Qed.

(** X8. The share details, and with them the share card, change in two
    ways only: a share creation sets them exactly when its [POST /shares]
    resolves, and a deletion clears them exactly when its [DELETE /photos]
    resolves.  A rejected creation or deletion, a handler that returns at
    its guard, and every other operation leave them as they were, whatever
    the server answers; and [handleError] never touches them, so the card
    of the last share stays on the page even when a 403 locks the
    console. *)
Theorem share_card_changes_only_by_share_or_delete {Σ : Type}
    (handle : ∀ sh, Request → Σ → Result (payload sh) * Σ)
    (trim : string → string) (a : Action) (st : State) (σ : Σ) :
  let st' := (run handle (perform trim a st) σ).1.1 in
  let share := api_post "/shares" (Json {[ "photo_ids" := selectedIds st ]})
                 (Api.adminHeaders (adminPassword st)) None in
  let del := api_delete "/photos" (Api.adminHeaders (adminPassword st))
               (Json {[ "photo_ids" := selectedIds st ]}) in
  match a with
  | Share =>
      if decide (selectedIds st = []) then shareDetails st' = shareDetails st
      else
        match (handle ShareCreated share σ).1 with
        | Resolved d => shareDetails st' = Some d
        | Rejected _ => shareDetails st' = shareDetails st
        end
  | Delete =>
      if decide (selectedIds st = []) then shareDetails st' = shareDetails st
      else
        match (handle Ignored del σ).1 with
        | Resolved _ => shareDetails st' = None
        | Rejected _ => shareDetails st' = shareDetails st
        end
  | _ => shareDetails st' = shareDetails st
  end
  ∧ ∀ e, shareCard (handleError e st') = shareCard st'
         ∧ (isForbidden e = true → isUnlocked (handleError e st') = false).
Proof.
  intros st' share del. split.
  - pose proof (outcome_perform_shareDetails trim a st st'
                  (run_outcome handle _ σ)) as Hany.
    destruct a as [| | files | id | | |];
      try (by destruct Hany as [? | [[? _] | [? _]]]).
    + clear Hany. subst st'. unfold perform.
      case_decide as Hsel.
      * unfold deleteSelected, selectionCount. by rewrite Hsel.
      * unfold deleteSelected, selectionCount.
        rewrite bool_decide_false by (by intros ?%nil_length_inv).
        rewrite run_Await. cbn [adminPassword selectedIds set_deleting].
        fold del. destruct (handle Ignored del σ) as [[u | e] σ1];
          cbn [fst snd].
        -- rewrite run_bind.
           match goal with |- context [run handle (fetchPhotos ?x) σ1] =>
             pose proof (run_outcome handle (fetchPhotos x) σ1) as Ho;
             destruct (run handle (fetchPhotos x) σ1) as [[st2 σ2] tr]
           end.
           simpl in *.
           apply outcome_fetchPhotos_cases in Ho as [-> | [[d ->] | [e ->]]];
             try done.
           by destruct (handleError_fields e
                          (set_shareDetails None
                             (set_statusMessage "Photos supprimées"
                                (set_deleting true st))))
             as (_ & _ & _ & _ & -> & _).
        -- simpl.
           by destruct (handleError_fields e (set_deleting true st))
             as (_ & _ & _ & _ & -> & _).
    + clear Hany. subst st'. unfold perform.
      case_decide as Hsel.
      * unfold generateShare, selectionCount. by rewrite Hsel.
      * rewrite run_generateShare by done. fold share. cbn [fst].
        destruct (handle ShareCreated share σ).1 as [d | e]; [done|]. simpl.
        by destruct (handleError_fields e (set_generating true st))
          as (_ & _ & _ & _ & -> & _).
  - intros e. split.
    + unfold shareCard.
      by destruct (handleError_fields e st') as (_ & _ & _ & _ & -> & _).
    + intros He. unfold handleError. by rewrite He.
Qed.

(** A share made with photo 7, then a deletion of photo 7 that the server
    refuses with 403: the console is locked and the card stays. *)
Lemma share_card_witness :
  let st := (run accepting
               (generateShare (set_selectedIds [7%Z]
                                 (initial (Some "admin")))) ()).1.1 in
  let e := {| response := Some {| status := 403; data := None |} |} in
  let st' := (run (refusing e) (perform (λ s, s) Delete st) ()).1.1 in
  isUnlocked st' = false
  ∧ shareDetails st' = shareDetails st.
Proof.
  intros st e st'. split; [reflexivity|].
  exact (proj1 (share_card_changes_only_by_share_or_delete (refusing e)
                  (λ s, s) Delete st ())).
Defined.

End ConsoleOutcome.

(** ** The photo grid *)
Section Grid.
Import PhotoGrid.

Lemma toggles_cards (format : string → string) (props : Props)
    (l : list Photo) :
  selectable props = true →
  omap (λ c, emits <$> checkbox c) (card format props <$> l) = photo_id <$> l.
Proof.
  intros Hsel. induction l as [|p l IH]; [done|].
  rewrite !fmap_cons. cbn [omap list_omap]. rewrite IH.
  unfold card. cbn [checkbox]. by rewrite Hsel.
Qed.

Lemma toggles_render (format : string → string) (props : Props) :
  selectable props = true →
  toggles (render format props) = photo_id <$> photos props.
Proof.
  intros Hsel. unfold render.
  destruct (bool_decide (length (photos props) = 0) && showEmpty props)
    eqn:Hempty.
  - apply andb_true_iff in Hempty as [Hlen _].
    apply bool_decide_eq_true, nil_length_inv in Hlen. by rewrite Hlen.
  - by apply toggles_cards.
Qed.

Lemma shownChecked_cards (format : string → string) (props : Props) (id : Z)
    (l : list Photo) :
  selectable props = true →
  omap (λ c, match checkbox c with
             | Some box =>
                 if bool_decide (emits box = id) then Some (checked box)
                 else None
             | None => None
             end) (card format props <$> l) =
    (λ _, isSelected props id) <$> filter (λ p, photo_id p = id) l.
Proof.
  intros Hsel. induction l as [|p l IH]; [done|].
  rewrite fmap_cons, filter_cons. cbn [omap list_omap]. rewrite IH.
  unfold card. cbn [checkbox]. rewrite Hsel. cbn [emits checked].
  case_bool_decide as Hid; case_decide; try done.
  rewrite fmap_cons. by rewrite Hid.
Qed.

Lemma shownChecked_render (format : string → string) (props : Props) (id : Z) :
  selectable props = true →
  shownChecked id (render format props) =
    (λ _, isSelected props id) <$> filter (λ p, photo_id p = id) (photos props).
Proof.
  intros Hsel. unfold render.
  destruct (bool_decide (length (photos props) = 0) && showEmpty props)
    eqn:Hempty.
  - apply andb_true_iff in Hempty as [Hlen _].
    apply bool_decide_eq_true, nil_length_inv in Hlen. by rewrite Hlen.
  - by apply shownChecked_cards.
Qed.

Lemma isSelected_toggled (id j : Z) (ids : list Z) :
  bool_decide (j ∈ toggled id ids) =
    if bool_decide (j = id) then negb (bool_decide (j ∈ ids))
    else bool_decide (j ∈ ids).
Proof.
  destruct (decide (j = id)) as [-> | Hne].
  - rewrite (bool_decide_true (id = id)) by done.
    destruct (decide (id ∈ ids)) as [Hin | Hin].
    + rewrite (bool_decide_true (id ∈ ids)) by done.
      apply bool_decide_eq_false. by intros ?%toggled_self.
    + rewrite (bool_decide_false (id ∈ ids)) by done.
      apply bool_decide_eq_true. by apply toggled_self.
  - rewrite (bool_decide_false (j = id)) by done.
    apply bool_decide_ext. by apply toggled_other.
Qed.

(** X9. The ids a click in the grid can pass to [toggleSelection] are
    exactly the ids of the photos the view holds, and only while the grid is
    on the page: on an unlocked console, and in the share view while it is
    neither loading nor showing an error.  A click can therefore never
    toggle an id that is not a listed photo. *)
Theorem grid_clicks_are_listed_photos (env : option string)
    (format : string → string) :
  (∀ st id,
     id ∈ Pages.clickable (Pages.adminGrid env format st)
     ↔ AdminView.isUnlocked st = true
       ∧ id ∈ photo_id <$> AdminView.photos st)
  ∧ (∀ st id,
       id ∈ Pages.clickable (Pages.adminGrid env format st)
       ↔ AdminView.offered (AdminView.Toggle id) st = true)
  ∧ (∀ v id,
       id ∈ Pages.clickable (Pages.shareGrid env format v)
       ↔ ShareView.loading (ShareView.refs v) = false
         ∧ ShareView.errorMessage (ShareView.refs v) = ""
         ∧ id ∈ photo_id <$> ShareView.photos (ShareView.refs v))
  ∧ (∀ v id,
       id ∈ Pages.clickable (Pages.shareGrid env format v)
       ↔ ShareView.enabled (ShareView.Toggle id) v = true).
Proof.
  assert (∀ st id,
     id ∈ Pages.clickable (Pages.adminGrid env format st)
     ↔ AdminView.isUnlocked st = true
       ∧ id ∈ photo_id <$> AdminView.photos st) as Hadm.
  { intros st id. unfold Pages.clickable, Pages.adminGrid.
    destruct (AdminView.isUnlocked st).
    - rewrite toggles_render by done. simpl. tauto.
    - rewrite elem_of_nil. split; [done | by intros [? _]]. }
  assert (∀ v id,
     id ∈ Pages.clickable (Pages.shareGrid env format v)
     ↔ ShareView.galleryVisible (ShareView.refs v) = true
       ∧ id ∈ photo_id <$> ShareView.photos (ShareView.refs v)) as Hshr.
  { intros v id. unfold Pages.clickable, Pages.shareGrid.
    destruct (ShareView.galleryVisible (ShareView.refs v)).
    - rewrite toggles_render by done. simpl. tauto.
    - rewrite elem_of_nil. split; [done | by intros [? _]]. }
  split_and!.
  - done.
  - intros st id. rewrite Hadm. simpl.
    rewrite andb_true_iff, bool_decide_eq_true. done.
  - intros v id. rewrite Hshr. unfold ShareView.galleryVisible.
    rewrite andb_true_iff, negb_true_iff, bool_decide_eq_true. tauto.
  - intros v id. rewrite Hshr. simpl.
    rewrite andb_true_iff, bool_decide_eq_true. done.
Qed.

(** X10. After [toggleSelection id], every box the page shows for the
    photo [id] has flipped and every other box is as it was, in the console
    and in the share view: what the grid shows follows the selection. *)
Theorem checkboxes_follow_toggle (env : option string)
    (format : string → string) (id j : Z) :
  (∀ st,
     Pages.checkedBoxes j
       (Pages.adminGrid env format (AdminView.toggleSelection id st)) =
     (if bool_decide (j = id) then negb else λ b, b)
       <$> Pages.checkedBoxes j (Pages.adminGrid env format st))
  ∧ (∀ v,
       Pages.checkedBoxes j
         (Pages.shareGrid env format
            {| ShareView.token := ShareView.token v;
               ShareView.refs :=
                 ShareView.toggleSelection id (ShareView.refs v) |}) =
       (if bool_decide (j = id) then negb else λ b, b)
         <$> Pages.checkedBoxes j (Pages.shareGrid env format v)).
Proof.
  split.
  - intros st. unfold Pages.checkedBoxes, Pages.adminGrid.
    assert (AdminView.isUnlocked (AdminView.toggleSelection id st)
            = AdminView.isUnlocked st
            ∧ AdminView.photos (AdminView.toggleSelection id st)
              = AdminView.photos st) as [-> Hph].
    { unfold AdminView.toggleSelection. by destruct (bool_decide _). }
    destruct (AdminView.isUnlocked st); [|done].
    rewrite !shownChecked_render by done. simpl.
    rewrite Hph, admin_toggle_selectedIds. unfold isSelected. simpl.
    rewrite isSelected_toggled, <- list_fmap_compose.
    apply list_fmap_ext. intros _ p _. simpl. by destruct (bool_decide (j = id)).
  - intros v. unfold Pages.checkedBoxes, Pages.shareGrid. simpl.
    assert (ShareView.galleryVisible
              (ShareView.toggleSelection id (ShareView.refs v))
            = ShareView.galleryVisible (ShareView.refs v)
            ∧ ShareView.photos (ShareView.toggleSelection id (ShareView.refs v))
              = ShareView.photos (ShareView.refs v)) as [-> Hph].
    { unfold ShareView.toggleSelection. by destruct (bool_decide _). }
    destruct (ShareView.galleryVisible (ShareView.refs v)); [|done].
    rewrite !shownChecked_render by done. simpl.
    rewrite Hph, share_toggle_selectedIds. unfold isSelected. simpl.
    rewrite isSelected_toggled, <- list_fmap_compose.
    apply list_fmap_ext. intros _ p _. simpl. by destruct (bool_decide (j = id)).
Qed.

End Grid.

(** ** Downloads and errors of the share view *)
Section ShareDownloads.
Import Http ShareView Samples.

Lemma blobErrorValue_truthy (fallback : string) (e : AxiosError) :
  fallback ≠ "" → blobErrorValue fallback e ≠ "".
Proof.
  intros Hf. unfold blobErrorValue. destruct (response e) as [resp|].
  - destruct (data resp) as [blob|]; [done | by intros [=]].
  - by intros [=].
Qed.

(** X11. With photos on the page, a download makes one request.  When it
    resolves, exactly one file is handed to the browser, named
    [alienshot-<token>.zip] and holding the bytes received, and no other ref
    changes (an error message already shown stays).  When it is rejected,
    nothing is saved and the gallery leaves the page; the call asks for a
    [Blob], so whenever a response came back the error ref holds the body of
    that response as a [Blob], whatever its bytes, and neither the server's
    text nor the fallback; ['Téléchargement impossible.'] is held only when
    no response or no data came back. *)
Theorem download_saves_one_named_archive {Σ : Type}
    (handle : ∀ sh, Request → Σ → Result (payload sh) * Σ)
    (tok : string) (ids : list Z) (st : State) (σ : Σ)
    (Hphotos : photos st ≠ []) :
  let req := api_post ("/shares/" +:+ tok +:+ "/download")
               (Json (if bool_decide (length ids = 0) then ∅
                      else {[ "photo_ids" := ids ]})) ∅ (Some "blob") in
  let out := run handle (downloadPhotos tok ids st) σ in
  out.2 = [Build_Exchange Blob req (handle Blob req σ).1]
  ∧ match (handle Blob req σ).1 with
    | Resolved d =>
        downloads out.1.1 =
          downloads st ++ [("alienshot-" +:+ tok +:+ ".zip", d)]
        ∧ out.1.1 = set_downloads (downloads out.1.1) st
    | Rejected e =>
        downloads out.1.1 = downloads st
        ∧ out.1.1 = set_errorMessage (errorMessage out.1.1) st
        ∧ errorBanner out.1.1 = Some (errorMessage out.1.1)
        ∧ galleryVisible out.1.1 = false
        ∧ match response e with
          | Some resp =>
              match data resp with
              | Some blob => errorMessage out.1.1 = Binary blob
              | None =>
                  errorMessage out.1.1 = Text "Téléchargement impossible."
              end
          | None => errorMessage out.1.1 = Text "Téléchargement impossible."
          end
    end.
Proof.
  intros req out. subst out. unfold downloadPhotos.
  rewrite bool_decide_false by (by intros ?%nil_length_inv).
  rewrite run_Await. fold req.
  destruct (handle Blob req σ) as [[d | e] σ1]; simpl; [done|].
  pose proof (blobErrorValue_truthy "Téléchargement impossible." e) as Hne.
  split_and!; try done.
  - unfold errorBanner. simpl. rewrite decide_False; [done|]. by apply Hne.
  - unfold galleryVisible. simpl. rewrite bool_decide_false; [|by apply Hne].
    by rewrite andb_false_r.
  - unfold blobErrorValue. destruct (response e) as [resp|]; [|done].
    by destruct (data resp).
Qed.

(** The whole share [a] downloaded from a server that accepts. *)
Lemma download_saves_witness :
  let st := (run accepting (fetchShare "a" initial) ()).1.1 in
  photos st ≠ []
  ∧ downloads (run accepting (downloadPhotos "a" [] st) ()).1.1
    = [("alienshot-a.zip", "PK")].
Proof.
  intros st.
  assert (photos st ≠ []) as H by discriminate.
  split; [exact H|].
  exact (proj1 (proj2 (download_saves_one_named_archive accepting "a" [] st ()
                         H))).
Defined.

Lemma outcome_downloadPhotos_error (tok : string) (ids : list Z)
    (st st' : State) :
  outcome (downloadPhotos tok ids st) st' →
  errorMessage st ≠ "" → errorMessage st' ≠ "".
Proof.
  unfold downloadPhotos. destruct (bool_decide _); simpl; [by intros ->|].
  intros [[d | e] ->]; simpl; [done|]. intros _.
  by apply blobErrorValue_truthy.
Qed.

Lemma perform_keeps_error (a : Action) (v v' : View) :
  staysOnShare a = true → enabled a v = true →
  errorMessage (refs v) ≠ "" →
  outcome (perform a v) v' →
  errorMessage (refs v') ≠ ""
  ∧ selectedIds (refs v') = selectedIds (refs v)
  ∧ photos (refs v') = photos (refs v)
  ∧ token v' = token v.
Proof.
  intros Hstay Hen Herr.
  destruct a as [t | id | |]; [done | | |]; unfold perform.
  - simpl in Hen. apply andb_true_iff in Hen as [Hvis _].
    unfold galleryVisible in Hvis. apply andb_true_iff in Hvis as [_ Hmsg].
    by apply bool_decide_eq_true in Hmsg.
  - intros (st' & Ho & ->)%outcome_bind. simpl. unfold downloadSelected in Ho.
    destruct (bool_decide _); [by simpl in Ho; subst st'|].
    pose proof (outcome_downloadPhotos_error _ _ _ _ Ho Herr).
    by apply outcome_downloadPhotos in Ho as [-> ->].
  - intros (st' & Ho & ->)%outcome_bind. simpl.
    pose proof (outcome_downloadPhotos_error _ _ _ _ Ho Herr).
    by apply outcome_downloadPhotos in Ho as [-> ->].
Qed.

(** X12. An error message in the share view is only cleared by the next
    [fetchShare].  Once a download has failed, however many clicks and
    downloads follow (also downloads that succeed), the gallery stays off
    the page, the selection can no longer be changed, and the photo list
    and the token are as they were; only a change of route brings the
    gallery back. *)
Theorem share_error_hides_gallery_until_navigation {Σ : Type}
    (handle : ∀ sh, Request → Σ → Result (payload sh) * Σ)
    (acts : list Action) (v : View) (σ : Σ)
    (Herror : errorMessage (refs v) ≠ "")
    (Hstay : forallb staysOnShare acts = true) :
  let v' := (run handle (session acts v) σ).1.1 in
  galleryVisible (refs v') = false
  ∧ errorMessage (refs v') ≠ ""
  ∧ selectedIds (refs v') = selectedIds (refs v)
  ∧ photos (refs v') = photos (refs v)
  ∧ token v' = token v.
Proof.
  intros v'. pose proof (run_outcome handle (session acts v) σ) as Ho.
  fold v' in Ho. clearbody v'. clear handle σ.
  assert (errorMessage (refs v') ≠ ""
          ∧ selectedIds (refs v') = selectedIds (refs v)
          ∧ photos (refs v') = photos (refs v)
          ∧ token v' = token v) as (He & Hs & Hp & Ht).
  { revert v Herror Ho. induction acts as [|a acts IH]; intros v Herror Ho.
    - simpl in Ho. by subst v'.
    - simpl in Hstay. apply andb_true_iff in Hstay as [Ha Hrest].
      simpl in Ho. destruct (enabled a v) eqn:Hen; [|by apply IH].
      apply outcome_bind in Ho as (v1 & Ho1 & Ho).
      destruct (perform_keeps_error a v v1 Ha Hen Herror Ho1)
        as (He1 & Hs1 & Hp1 & Ht1).
      destruct (IH Hrest v1 He1 Ho) as (? & ? & ? & ?).
      split_and!; congruence. }
  split_and!; try done. unfold galleryVisible.
  rewrite bool_decide_false by done. by rewrite andb_false_r.
Qed.

(** Share [a] loaded and photo 7 selected; the download of the selection
    is refused by a server that only resolves shares; a click and a second
    download follow. *)
Lemma share_error_witness :
  let v := (run oneShare
              (mount "a" ≫= session [Toggle 7; DownloadSelected]) ()).1.1 in
  let acts := [Toggle 7; DownloadAll] in
  errorMessage (refs v) ≠ ""
  ∧ forallb staysOnShare acts = true
  ∧ galleryVisible (refs (run oneShare (session acts v) ()).1.1) = false
  ∧ selectedIds (refs (run oneShare (session acts v) ()).1.1) = [7%Z].
Proof.
  intros v acts.
  assert (errorMessage (refs v) ≠ "") as H by discriminate.
  split; [exact H|]. split; [reflexivity|].
  destruct (share_error_hides_gallery_until_navigation oneShare acts v ()
              H eq_refl) as (Hvis & _ & Hsel & _).
  split; [exact Hvis|]. exact Hsel.
Defined.

(** X13. After [fetchShare] the loading flag is down, and the gallery is
    on the page exactly when the request resolved, whatever error or
    loading state the view was in before: a share that resolves clears an
    earlier error. *)
Theorem fetchShare_gallery_iff_resolved {Σ : Type}
    (handle : ∀ sh, Request → Σ → Result (payload sh) * Σ)
    (tok : string) (st : State) (σ : Σ) :
  let out := run handle (fetchShare tok st) σ in
  loading out.1.1 = false
  ∧ (galleryVisible out.1.1 = true
     ↔ ∃ d, (handle ShareInfo (api_get ("/shares/" +:+ tok) ∅) σ).1
            = Resolved d)
  ∧ (errorBanner out.1.1 = None
     ↔ ∃ d, (handle ShareInfo (api_get ("/shares/" +:+ tok) ∅) σ).1
            = Resolved d).
Proof.
  intros out. subst out. rewrite run_fetchShare. cbn [fst snd].
  destruct (handle ShareInfo _ σ).1 as [d | e]; simpl.
  - split_and!; [done | |]; (split; [by eauto | done]).
  - pose proof (share_errorText_truthy "Partage introuvable." e) as Hne.
    split_and!; [done | |].
    + unfold galleryVisible. simpl. rewrite bool_decide_false by by apply Hne.
      split; [done | by intros [d [=]]].
    + unfold errorBanner. simpl. rewrite decide_False by by apply Hne.
      split; [done | by intros [d [=]]].
Qed.

End ShareDownloads.

(** ** The URLs of services/api.js *)
Section Urls.
Import Api.

Lemma stripTrailingSlash_empty (s : string) :
  stripTrailingSlash s = "" ↔ s = "" ∨ s = "/".
Proof.
  destruct s as [|c [|d s]]; simpl.
  - split; [by left | done].
  - case_decide as Hc; [subst c; split; [by right | done]|].
    split; [done|]. intros [? | ?]; congruence.
  - split; [done|]. intros [? | ?]; congruence.
Qed.

(** X14. The base URL is empty in one case only, when
    [VITE_API_BASE_URL] is exactly ["/"]; the file URLs are then paths from
    the root of the page's own origin.  In every other configuration,
    unset and empty included, the base is not empty. *)
Theorem apiBaseUrl_empty_iff_slash (env : option string) :
  (apiBaseUrl env = "" ↔ env = Some "/")
  ∧ (∀ token id, env = Some "/" →
       shareFileUrl env token id
       = "/shares/" +:+ token +:+ "/files/" +:+ pretty id).
Proof.
  split.
  - unfold apiBaseUrl. rewrite stripTrailingSlash_empty. unfold rawBaseUrl.
    destruct env as [u|].
    + case_decide as Hu.
      * subst u. split; [by intros [? | ?] | done].
      * split; [intros [? | ->]; done | by intros [= ->]; right].
    + split; [by intros [? | ?] | done].
  - by intros token id ->.
Qed.

Lemma apiBaseUrl_slash_witness :
  shareFileUrl (Some "/") "tok" 7 = "/shares/tok/files/7".
Proof.
  exact (proj2 (apiBaseUrl_empty_iff_slash (Some "/")) "tok" 7%Z eq_refl).
Defined.

Lemma allChars_app (ok : ascii → bool) (a b : string) :
  allChars ok (a +:+ b) = allChars ok a && allChars ok b.
Proof.
  induction a as [|c a IH]; simpl; [done|]. by rewrite IH, andb_assoc.
Qed.

Lemma encodedChar_byte (c : ascii) :
  allChars encodedChar (formEncodeByte c) = true.
Proof. destruct c as [[] [] [] [] [] [] [] []]; vm_compute; reflexivity. Qed.

Lemma allChars_formEncode (s : string) :
  allChars encodedChar (formEncode s) = true.
Proof.
  induction s as [|c s IH]; [done|].
  simpl formEncode. by rewrite allChars_app, encodedChar_byte, IH.
Qed.

Lemma formEncode_safe (s : string) :
  allChars formSafe s = true → formEncode s = s.
Proof.
  induction s as [|c s IH]; [done|]. simpl.
  intros [Hc Hs]%andb_true_iff. unfold formEncodeByte. rewrite Hc.
  simpl. by rewrite IH.
Qed.

Lemma formEncode_inj (a b : string) : formEncode a = formEncode b → a = b.
Proof.
  intros H. apply (f_equal formDecode) in H.
  rewrite !formDecode_formEncode in H. congruence.
Qed.

(** X15. In the admin file URL the query string is [password=] followed
    by characters of the form encoding only (letters, digits, [* - . _],
    [+] and [%]): whatever the secret, it cannot close the parameter or add
    another one, since no [&], [=], [#], [?], [/] or space appears in it. *)
Theorem photoFileUrl_query_is_one_parameter (env : option string) (id : Z)
    (password : string) :
  photoFileUrl env id password =
    (apiBaseUrl env +:+ "/photos/" +:+ pretty id +:+ "/file?password=")
    +:+ formEncode password
  ∧ allChars encodedChar (formEncode password) = true
  ∧ allChars (λ c, negb (bool_decide
                (c ∈ ["&"; "="; "#"; "?"; "/"; " "]%char)))
      (formEncode password) = true.
Proof.
  split_and!.
  - unfold photoFileUrl, passwordParams. rewrite !append_assoc. done.
  - apply allChars_formEncode.
  - pose proof (allChars_formEncode password) as H.
    induction (formEncode password) as [|c s IH]; [done|].
    simpl in *. apply andb_true_iff in H as [Hc Hs].
    rewrite IH by done. rewrite andb_true_r.
    apply negb_true_iff, bool_decide_eq_false. intros Hin.
    repeat (apply elem_of_cons in Hin as [-> | Hin]; [done|]).
    by apply elem_of_nil in Hin.
Qed.

(** X16. The form encoding loses nothing: two secrets with the same
    encoding are the same secret, so for a given base and photo distinct
    secrets give distinct file URLs; and a secret made of letters, digits
    and [* - . _] only appears in the URL as it is. *)
Theorem photoFileUrl_determines_secret (env : option string) (id : Z)
    (a b : string) (Hsame : photoFileUrl env id a = photoFileUrl env id b) :
  a = b
  ∧ (allChars formSafe a = true →
     photoFileUrl env id a =
       (apiBaseUrl env +:+ "/photos/" +:+ pretty id +:+ "/file?password=")
       +:+ a).
Proof.
  split.
  - unfold photoFileUrl, passwordParams in Hsame.
    repeat apply String.app_inj in Hsame. by apply formEncode_inj.
  - intros Hsafe. unfold photoFileUrl, passwordParams.
    rewrite (formEncode_safe a Hsafe), !append_assoc. done.
Qed.

Lemma photoFileUrl_secret_witness :
  photoFileUrl None 3 "admin"
  = "http://localhost:5000/photos/3/file?password=admin".
Proof.
  exact (proj2 (photoFileUrl_determines_secret None 3 "admin" "admin" eq_refl)
           eq_refl).
Defined.

End Urls.

(** ** Unlocking the console *)
Section Unlocking.
Import Http AdminView Samples.

(** X17. Unlocking with an input that does not trim to nothing stores the
    trimmed secret in memory and in [sessionStorage] before the listing is
    answered, and only a 403 takes it back.  So the console ends locked
    exactly when the listing was rejected with status 403; after any other
    answer, a network failure or a server error included, it is unlocked
    with the typed secret persisted, and a listing that resolved is
    shown. *)
Theorem unlock_locked_iff_forbidden {Σ : Type}
    (handle : ∀ sh, Request → Σ → Result (payload sh) * Σ)
    (trim : string → string) (st : State) (σ : Σ)
    (Hinput : trim (passwordInput st) ≠ "") :
  let secret := trim (passwordInput st) in
  let get := api_get "/photos" (Api.adminHeaders secret) in
  let out := run handle (unlock trim st) σ in
  out.2 = [Build_Exchange PhotoList get (handle PhotoList get σ).1]
  ∧ match (handle PhotoList get σ).1 with
    | Resolved d =>
        isUnlocked out.1.1 = true ∧ adminPassword out.1.1 = secret
        ∧ sessionItem out.1.1 = Some secret
        ∧ photos out.1.1 = d ∧ selectedIds out.1.1 = []
    | Rejected e =>
        if isForbidden e then
          isUnlocked out.1.1 = false ∧ sessionItem out.1.1 = None
        else
          isUnlocked out.1.1 = true ∧ adminPassword out.1.1 = secret
          ∧ sessionItem out.1.1 = Some secret
          ∧ photos out.1.1 = photos st
    end.
Proof.
  intros secret get out. subst out. unfold unlock.
  rewrite decide_False by done. fold secret.
  assert (persistPassword (set_adminPassword secret st)
          = set_sessionItem (Some secret) (set_adminPassword secret st)) as ->.
  { unfold persistPassword, isUnlocked. simpl. by rewrite bool_decide_true. }
  unfold fetchPhotos, isUnlocked. simpl.
  rewrite bool_decide_true by done. simpl. fold get.
  destruct (handle PhotoList get σ) as [[d | e] σ1]; simpl.
  - split; [done|]. by rewrite bool_decide_true.
  - split; [done|]. unfold handleError. destruct (isForbidden e); simpl.
    + done.
    + by rewrite bool_decide_true.
Qed.

(** A secret typed while the server is down. *)
Lemma unlock_witness :
  let e := {| response := None |} in
  let st := {| passwordInput := "guess"; adminPassword := "";
               photos := []; selectedIds := [];
               statusMessage := ""; errorMessage := "";
               shareDetails := None; uploading := false;
               deleting := false; generating := false;
               sessionItem := None |} in
  isUnlocked (run (refusing e) (unlock (λ s, s) st) ()).1.1 = true
  ∧ sessionItem (run (refusing e) (unlock (λ s, s) st) ()).1.1 = Some "guess".
Proof.
  intros e st.
  destruct (proj2 (unlock_locked_iff_forbidden (refusing e) (λ s, s) st ()
                     ltac:(discriminate))) as (Hu & _ & Hs & _).
  exact (conj Hu Hs).
Defined.

End Unlocking.

(** ** The cards of the grid *)
Section Cards.
Import PhotoGrid.

Lemma render_cards (format : string → string) (props : Props) :
  match render format props with
  | EmptyState _ => photos props = [] ∧ showEmpty props = true
  | Grid cards => cards = card format props <$> photos props
  end.
Proof.
  unfold render.
  destruct (bool_decide (length (photos props) = 0) && showEmpty props)
    eqn:Hempty; [|done].
  apply andb_true_iff in Hempty as [Hlen ?].
  by apply bool_decide_eq_true, nil_length_inv in Hlen.
Qed.

(** X18. Each view shows the empty-state paragraph when it holds no
    photo, and otherwise one card per photo, in order.  In the console a
    card has no link and its image URL is the admin file URL carrying the
    secret; in the share view the image URL is the share file URL of the
    current token, which carries no secret, and the card links to that same
    URL.  A photo without timestamp is dated ['Date inconnue']. *)
Theorem grid_cards_per_view (env : option string) (format : string → string) :
  (∀ st, AdminView.isUnlocked st = true →
     match Pages.adminGrid env format st with
     | Some (EmptyState _) => AdminView.photos st = []
     | Some (Grid cards) =>
         AdminView.photos st ≠ []
         ∧ alt <$> cards = photo_original_name <$> AdminView.photos st
         ∧ src <$> cards =
             (λ p, Api.photoFileUrl env (photo_id p)
                     (AdminView.adminPassword st)) <$> AdminView.photos st
         ∧ link <$> cards = (λ _, None) <$> AdminView.photos st
     | None => False
     end)
  ∧ (∀ v, ShareView.galleryVisible (ShareView.refs v) = true →
       match Pages.shareGrid env format v with
       | Some (EmptyState _) => ShareView.photos (ShareView.refs v) = []
       | Some (Grid cards) =>
           ShareView.photos (ShareView.refs v) ≠ []
           ∧ alt <$> cards =
               photo_original_name <$> ShareView.photos (ShareView.refs v)
           ∧ src <$> cards =
               (λ p, Api.shareFileUrl env (ShareView.token v) (photo_id p))
                 <$> ShareView.photos (ShareView.refs v)
           ∧ link <$> cards = Some <$> (src <$> cards)
       | None => False
       end)
  ∧ (∀ props p,
       photo_created_at p = "" → date (card format props p) = "Date inconnue").
Proof.
  split_and!.
  - intros st Hunl. unfold Pages.adminGrid. rewrite Hunl.
    match goal with |- context [render format ?p] =>
      pose proof (render_cards format p) as H; unfold render in *;
      destruct (bool_decide (length (photos p) = 0) && showEmpty p) eqn:Hempty
    end; simpl in *.
    + by destruct H.
    + subst. rewrite andb_true_r in Hempty.
      apply bool_decide_eq_false in Hempty. split_and!.
      * intros Heq. apply Hempty. by rewrite Heq.
      * by rewrite <- list_fmap_compose.
      * rewrite <- list_fmap_compose. apply list_fmap_ext. intros i p _.
        simpl. unfold AdminView.buildPhotoSrc. by rewrite Hunl.
      * by rewrite <- list_fmap_compose.
  - intros v Hvis. unfold Pages.shareGrid. rewrite Hvis.
    match goal with |- context [render format ?p] =>
      pose proof (render_cards format p) as H; unfold render in *;
      destruct (bool_decide (length (photos p) = 0) && showEmpty p) eqn:Hempty
    end; simpl in *.
    + by destruct H.
    + subst. rewrite andb_true_r in Hempty.
      apply bool_decide_eq_false in Hempty. split_and!.
      * intros Heq. apply Hempty. by rewrite Heq.
      * by rewrite <- list_fmap_compose.
      * by rewrite <- list_fmap_compose.
      * by rewrite <- !list_fmap_compose.
  - intros props p Hp. unfold card, formatDate. simpl. by rewrite Hp.
Qed.

(** The share [a] as the page shows it. *)
Lemma grid_cards_witness :
  let v := (Http.run Samples.oneShare (ShareView.mount "a") ()).1.1 in
  ShareView.galleryVisible (ShareView.refs v) = true
  ∧ match Pages.shareGrid None (λ s, s) v with
    | Some (Grid cards) =>
        src <$> cards = ["http://localhost:5000/shares/a/files/7"]
    | _ => False
    end.
Proof.
  intros v. split; [reflexivity|].
  pose proof (proj1 (proj2 (grid_cards_per_view None (λ s, s))) v eq_refl) as H.
  change (Pages.shareGrid None (λ s, s) v) with
    (Some (render (λ s, s)
             {| photos := ShareView.photos (ShareView.refs v);
                selectedIds := ShareView.selectedIds (ShareView.refs v);
                selectable := true; showEmpty := true;
                getPhotoSrc := ShareView.buildPhotoSrc None (ShareView.token v);
                linkBuilder :=
                  Some (ShareView.buildPhotoSrc None (ShareView.token v)) |}))
    in *.
  destruct (render _ _) as [text | cards]; [discriminate H|].
  destruct H as (_ & _ & Hsrc & _). exact Hsrc.
Defined.

End Cards.
